(** * personal_finance: the repository layer of [data/database.py]

    A shallow embedding of the persistence and business-rule layer
    ([src/data/database.py]) and of the monetary text parser of
    [src/main.py], with the properties of the specification stated over it.

    Modelling conventions.
    - A table with an [INTEGER PRIMARY KEY] is a finite map from the row id
      to the remaining columns, so primary-key uniqueness is structural, as
      it is in the rowid B-tree of the storage engine.  The other
      constraints of the DDL ([UNIQUE], [CHECK], [FOREIGN KEY] with its
      [ON DELETE] action) are checked by the statements that write.
    - Text is [string] read as ASCII text; [str.strip], [str.lower] and the
      [NOCASE] collation act on the ASCII range.
    - A monetary value is a finite [Decimal]: a signed coefficient and a
      decimal exponent.  NaN, the infinities and the sign of zero are not
      values of the type.  Arithmetic is that of the default context: 28
      digits of precision, results rounded half-even, [quantize] raising
      [InvalidOperation] when its result needs more digits.
    - The [TEXT] money columns hold what [adapt_decimal] wrote and
      [convert_decimal] reads back, so a column holds the [Decimal] itself.
    - The aggregate [SUM] over a money column is computed by the storage
      engine in binary floating point and read back through the converter
      from a text of 15 significant digits.  It is not code of the
      repository: it is a parameter of the model, the class [Engine], of
      which only the laws of SQL are assumed.  The sign filter
      [CAST(amount AS REAL) < 0] is the exact sign test.
    - An integer bound to a statement must fit the engine's signed 64-bit
      INTEGER; the driver raises [OverflowError] otherwise.  The functions
      on transactions, accounts, budgets and balances model this; the
      category functions and [get_transaction_by_id] are modelled for the
      ids that fit.
    - A storage fault is an input of every operation, the [storage]
      argument: [sqlite3.Error] raised when the connection is opened.  A
      fault raised later, by a statement or by the commit, has the same
      outcome for a body that raises nothing else before it: the writes
      are rolled back and the [except] branch returns. *)

From stdpp Require Import gmap strings list fin_maps sorting.
From Stdlib Require Import Ascii ZArith QArith Qround Qpower Qabs Qminmax Lia.

Local Open Scope Z_scope.

(** ** Python [str] operations used by the repository *)

Module PyStr.

(** [str.isspace] on the ASCII range: TAB, LF, VT, FF, CR, the four
  separators FS, GS, RS, US and the space. *)
Definition isspace (a : ascii) : bool :=
let n := Z.of_nat (nat_of_ascii a) in
((9 <=? n) && (n <=? 13)) || ((28 <=? n) && (n <=? 32)).

Fixpoint lstrip (s : string) : string :=
match s with
| EmptyString => EmptyString
| String a s' => if isspace a then lstrip s' else s
end.

Fixpoint rstrip (s : string) : string :=
match s with
| EmptyString => EmptyString
| String a s' =>
    match rstrip s' with
    | EmptyString => if isspace a then EmptyString else String a EmptyString
    | r => String a r
    end
end.

(** [s.strip()] *)
Definition strip (s : string) : string := rstrip (lstrip s).

Definition lower_ascii (a : ascii) : ascii :=
let n := nat_of_ascii a in
if ((65 <=? n) && (n <=? 90))%nat then ascii_of_nat (n + 32) else a.

(** [s.lower()] *)
Fixpoint lower (s : string) : string :=
match s with
| EmptyString => EmptyString
| String a s' => String (lower_ascii a) (lower s')
end.

(** [s.replace(old, new)] for one-character [old] and [new]. *)
Fixpoint replace (old new : ascii) (s : string) : string :=
match s with
| EmptyString => EmptyString
| String a s' =>
    String (if decide (a = old) then new else a) (replace old new s')
end.

(** [len(s)] *)
Definition len (s : string) : Z := Z.of_nat (String.length s).

(** [s[i]] for [0 <= i]; [None] stands for [IndexError]. *)
Definition index (s : string) (i : nat) : option ascii := String.get i s.

End PyStr.

(** ** Exceptions *)

(** The exceptions of [sqlite3.Error] the statements raise. *)
Inductive sqlite3_Error : Type :=
| IntegrityError
| OperationalError.

(** What a function of the repository can raise.  Only the first kind is
    caught by [except sqlite3.Error]. *)
Inductive exception : Type :=
| sqlite3_error (e : sqlite3_Error)
| OverflowError
| decimal_InvalidOperation
| AttributeError.

(** What a caller sees of a call: the value returned or the exception that
    leaves the function. *)
Inductive outcome (A : Type) : Type :=
| Returned (a : A)
| Raised (e : exception).

Arguments Returned {A} a.
Arguments Raised {A} e.

Global Instance sqlite3_Error_eq_dec : EqDecision sqlite3_Error.
Proof. solve_decision. Defined.
Global Instance exception_eq_dec : EqDecision exception.
Proof. solve_decision. Defined.
Global Instance outcome_eq_dec `{EqDecision A} : EqDecision (outcome A).
Proof. solve_decision. Defined.

(** ** Decimal values *)

Record Decimal : Type := mkDecimal { coeff : Z; exp : Z }.

Global Instance Decimal_eq_dec : EqDecision Decimal.
Proof. solve_decision. Defined.

(** [Decimal('0.00')] and [Decimal('0.01')]. *)
Definition Decimal_0_00 : Decimal := mkDecimal 0 (-2).
Definition Decimal_0_01 : Decimal := mkDecimal 1 (-2).

(** The precision of the default context. *)
Definition prec : Z := 28.

(** The coefficient of [d] written at the exponent [e], for [e <= exp d]. *)
Definition rescale (d : Decimal) (e : Z) : Z := coeff d * 10 ^ (exp d - e).

(** The number of decimal digits of [c >= 0], by repeated division. *)
Fixpoint digits_from (fuel : nat) (c : Z) : Z :=
  match fuel with
  | O => 0
  | S fuel' => if c =? 0 then 0 else 1 + digits_from fuel' (c / 10)
  end.

Definition digits (c : Z) : Z :=
  digits_from (S (Z.to_nat (Z.log2 (Z.abs c)))) (Z.abs c).

(** Division of the coefficient [c] by [m > 0] rounded to the nearest
    integer, ties going to the even neighbour ([ROUND_HALF_EVEN], the
    rounding of the default context). *)
Definition round_half_even (c m : Z) : Z :=
  let q := Z.abs c / m in
  let r := Z.abs c mod m in
  Z.sgn c * (if 2 * r <? m then q
             else if 2 * r =? m then (if Z.even q then q else q + 1)
             else q + 1).

(** The rounding every arithmetic operation applies to its result: a
    coefficient of more than [prec] digits is rounded to [prec] digits. *)
Definition context_round (d : Decimal) : Decimal :=
  if Z.abs (coeff d) <? 10 ^ prec then d
  else
    let k := digits (coeff d) - prec in
    let c := round_half_even (coeff d) (10 ^ k) in
    if Z.abs c =? 10 ^ prec
    then mkDecimal (c / 10) (exp d + k + 1)
    else mkDecimal c (exp d + k).

(** The exact sum: the operands are aligned on the smaller exponent. *)
Definition exact_add (a b : Decimal) : Decimal :=
  let e := Z.min (exp a) (exp b) in
  mkDecimal (rescale a e + rescale b e) e.

(** [a + b] *)
Definition Decimal_add (a b : Decimal) : Decimal :=
  context_round (exact_add a b).

(** Three-way comparison of the numerical values. *)
Definition Decimal_compare (a b : Decimal) : comparison :=
  let e := Z.min (exp a) (exp b) in
  rescale a e ?= rescale b e.

(** [a < b] and [a > b] *)
Definition Decimal_lt (a b : Decimal) : bool :=
  match Decimal_compare a b with Lt => true | _ => false end.
Definition Decimal_gt (a b : Decimal) : bool := Decimal_lt b a.

(** The builtin [max(a, b)]: [b] only when [b > a]. *)
Definition py_max (a b : Decimal) : Decimal :=
  if Decimal_gt b a then b else a.

(** [abs(d)] *)
Definition Decimal_abs (d : Decimal) : Decimal :=
  context_round (mkDecimal (Z.abs (coeff d)) (exp d)).

(** Division of the coefficient [c] by [m > 0] rounded to the nearest
    integer, ties going away from zero ([ROUND_HALF_UP]). *)
Definition round_half_up (c m : Z) : Z :=
  Z.sgn c * ((2 * Z.abs c + m) / (2 * m)).

(** The value of [d] written at the exponent [e], rounded half-up when [e]
    is the larger exponent. *)
Definition quantize_exp (e : Z) (d : Decimal) : Decimal :=
  if e <=? exp d
  then mkDecimal (coeff d * 10 ^ (exp d - e)) e
  else mkDecimal (round_half_up (coeff d) (10 ^ (e - exp d))) e.

(** [d] rounded to two places, ties away from zero: what
    [d.quantize(Decimal('0.01'), rounding=ROUND_HALF_UP)] returns when it
    returns. *)
Definition to_cents (d : Decimal) : Decimal := quantize_exp (exp Decimal_0_01) d.

(** [d.quantize(Decimal('0.01'), rounding=ROUND_HALF_UP)]: the method raises
    [InvalidOperation] when the coefficient of the result has more digits
    than the precision of the context. *)
Definition quantize (d : Decimal) : exception + Decimal :=
  let q := to_cents d in
  if Z.abs (coeff q) <? 10 ^ prec then inr q else inl decimal_InvalidOperation.

(** The rational number a Decimal denotes. *)
Definition value (d : Decimal) : Q :=
  (inject_Z (coeff d) * Qpower (10 # 1) (exp d))%Q.

(** ** The store *)

Record account_row : Type := mkAccount {
  acc_name : string;
  acc_initial_balance : Decimal
}.

Record category_row : Type := mkCategory {
  cat_name : string;
  cat_type : string
}.

Record transaction_row : Type := mkTransaction {
  tx_account_id : Z;
  tx_date : string;
  tx_description : string;
  tx_amount : Decimal;
  tx_category_id : option Z
}.

Record budget_row : Type := mkBudget {
  bud_category_id : Z;
  bud_month : string;
  bud_amount : Decimal
}.

Global Instance account_row_eq_dec : EqDecision account_row.
Proof. solve_decision. Defined.
Global Instance category_row_eq_dec : EqDecision category_row.
Proof. solve_decision. Defined.
Global Instance transaction_row_eq_dec : EqDecision transaction_row.
Proof. solve_decision. Defined.
Global Instance budget_row_eq_dec : EqDecision budget_row.
Proof. solve_decision. Defined.

(** The four business tables, each with the [AUTOINCREMENT] counter the
    engine keeps for it in [sqlite_sequence]. *)
Record db : Type := mkDb {
  accounts : gmap Z account_row;
  accounts_seq : Z;
  categories : gmap Z category_row;
  categories_seq : Z;
  transactions : gmap Z transaction_row;
  transactions_seq : Z;
  budgets : gmap Z budget_row;
  budgets_seq : Z
}.

Definition with_accounts (t : gmap Z account_row) (s : Z) (d : db) : db :=
  mkDb t s (categories d) (categories_seq d) (transactions d)
       (transactions_seq d) (budgets d) (budgets_seq d).

Definition with_categories (t : gmap Z category_row) (d : db) : db :=
  mkDb (accounts d) (accounts_seq d) t (categories_seq d) (transactions d)
       (transactions_seq d) (budgets d) (budgets_seq d).

Definition with_transactions (t : gmap Z transaction_row) (s : Z) (d : db) : db :=
  mkDb (accounts d) (accounts_seq d) (categories d) (categories_seq d) t s
       (budgets d) (budgets_seq d).

Definition with_budgets (t : gmap Z budget_row) (s : Z) (d : db) : db :=
  mkDb (accounts d) (accounts_seq d) (categories d) (categories_seq d)
       (transactions d) (transactions_seq d) t s.

(** The largest row id of a table, 0 for an empty one. *)
Definition max_rowid {A} (t : gmap Z A) : Z :=
  foldr (λ kv acc, Z.max kv.1 acc) 0 (map_to_list t).

(** The row id an [AUTOINCREMENT] column gives the next inserted row: one
    more than the largest id the table holds or ever held. *)
Definition next_rowid {A} (t : gmap Z A) (seq : Z) : Z :=
  Z.max seq (max_rowid t) + 1.

(** ** Connections, cursors and faults *)

(** Whether the storage engine serves the operation or raises
    [sqlite3.Error] under it. *)
Inductive storage : Type :=
| Healthy
| Faulty.

(** The SQL statements run inside a [with get_db_connection()] block: they
    read and write the uncommitted state and may raise [sqlite3.Error]. *)
Definition cursor (A : Type) : Type := db → sqlite3_Error + A * db.

Global Instance cursor_ret : MRet cursor := λ A a d, inr (a, d).

Global Instance cursor_bind : MBind cursor := λ A B f m d,
  match m d with
  | inl e => inl e
  | inr (a, d') => f a d'
  end.

Definition query {A} (f : db → A) : cursor A := λ d, inr (f d, d).

Definition raise {A} (e : sqlite3_Error) : cursor A := λ _, inl e.

(** [with get_db_connection() as conn: body]: the body's writes are
    committed when it returns and rolled back when [sqlite3.Error] is raised,
    which is then raised again to the caller. *)
Definition get_db_connection {A} (st : storage) (body : cursor A) (d : db)
  : (sqlite3_Error + A) * db :=
  match st with
  | Faulty => (inl OperationalError, d)
  | Healthy =>
      match body d with
      | inl e => (inl e, d)
      | inr (a, d') => (inr a, d')
      end
  end.

(** [try: with ...: body  except sqlite3.Error: return failed] *)
Definition try_except {A} (st : storage) (body : cursor A) (failed : A) (d : db)
  : A * db :=
  match get_db_connection st body d with
  | (inr a, d') => (a, d')
  | (inl _, d') => (failed, d')
  end.

(** The body of a [with] block in general: statements and the Python code
    between them, which may raise any exception. *)
Definition block (A : Type) : Type := db → exception + A * db.

Global Instance block_ret : MRet block := λ A a d, inr (a, d).

Global Instance block_bind : MBind block := λ A B f m d,
  match m d with
  | inl e => inl e
  | inr (a, d') => f a d'
  end.

(** A computation of the interpreter, which returns or raises and does not
    touch the store. *)
Definition py {A} (r : exception + A) : block A := λ d,
  match r with
  | inl e => inl e
  | inr a => inr (a, d)
  end.

(** The integers the engine stores: signed, 64 bits. *)
Definition int64 (n : Z) : Prop := - 2 ^ 63 <= n < 2 ^ 63.

Global Instance int64_dec n : Decision (int64 n).
Proof. unfold int64. apply _. Defined.

(** [cursor.execute(sql, params)]: the driver binds the parameters, raising
    [OverflowError] on an integer that does not fit the engine's INTEGER,
    and then runs the statement.  [ints] are the integers among [params]. *)
Definition execute {A} (ints : list Z) (statement : cursor A) : block A := λ d,
  if decide (Forall int64 ints) then
    match statement d with
    | inl e => inl (sqlite3_error e)
    | inr r => inr r
    end
  else inl OverflowError.

(** [try: with get_db_connection() as conn: body
     except sqlite3.Error: return failed] for a body that binds integers or
    quantizes amounts.  An exception of another class leaves the function;
    the connection is closed without a commit, so the store is as it
    was. *)
Definition try_except_sqlite3 {A} (st : storage) (body : block A) (failed : A)
    (d : db) : outcome A * db :=
  match st with
  | Faulty => (Returned failed, d)
  | Healthy =>
      match body d with
      | inr (a, d') => (Returned a, d')
      | inl (sqlite3_error _) => (Returned failed, d)
      | inl e => (Raised e, d)
      end
  end.

Local Open Scope string_scope.

(** ** Statements of the category, budget, transaction and account tables *)

(** [UNIQUE COLLATE NOCASE] on a name column: two names collide when their
    ASCII-folded texts are equal. *)
Definition nocase_eq (a b : string) : Prop := PyStr.lower a = PyStr.lower b.

(** Some category other than the row [self] holds the name. *)
Definition category_name_taken (t : gmap Z category_row) (self : Z)
    (name : string) : Prop :=
  map_Exists (λ k r, k ≠ self ∧ nocase_eq (cat_name r) name) t.

(** Some account holds the name. *)
Definition account_name_taken (t : gmap Z account_row) (name : string) : Prop :=
  map_Exists (λ _ r, nocase_eq (acc_name r) name) t.

(** [CHECK(type IN ('expense', 'income'))] *)
Definition category_type_ok (ty : string) : Prop :=
  ty = "expense" ∨ ty = "income".

Global Instance nocase_eq_dec a b : Decision (nocase_eq a b).
Proof. unfold nocase_eq. apply _. Defined.
Global Instance category_name_taken_dec t self name :
  Decision (category_name_taken t self name).
Proof. unfold category_name_taken. apply _. Defined.
Global Instance account_name_taken_dec t name :
  Decision (account_name_taken t name).
Proof. unfold account_name_taken. apply _. Defined.
Global Instance category_type_ok_dec ty : Decision (category_type_ok ty).
Proof. unfold category_type_ok. apply _. Defined.

(** [UPDATE categories SET name = ?, type = ? WHERE id = ?], yielding
    [cursor.rowcount]. *)
Definition sql_update_category (id : Z) (name ty : string) : cursor Z := λ d,
  match categories d !! id with
  | None => inr (0, d)
  | Some _ =>
      if decide (category_type_ok ty ∧ ¬ category_name_taken (categories d) id name)
      then inr (1, with_categories (<[id := mkCategory name ty]> (categories d)) d)
      else inl IntegrityError
  end.

(** [ON DELETE SET NULL] of [transactions.category_id]. *)
Definition clear_category (id : Z) (t : transaction_row) : transaction_row :=
  if decide (tx_category_id t = Some id)
  then mkTransaction (tx_account_id t) (tx_date t) (tx_description t)
                     (tx_amount t) None
  else t.

(** [DELETE FROM categories WHERE id = ?] with the actions of the two
    foreign keys that reference the row: the budgets of the category are
    deleted ([ON DELETE CASCADE]) and its transactions lose their category
    ([ON DELETE SET NULL]).  Yields [cursor.rowcount]. *)
Definition sql_delete_category (id : Z) : cursor Z := λ d,
  match categories d !! id with
  | None => inr (0, d)
  | Some _ =>
      inr (1, mkDb (accounts d) (accounts_seq d)
                   (delete id (categories d)) (categories_seq d)
                   (clear_category id <$> transactions d) (transactions_seq d)
                   (filter (λ kv, bud_category_id kv.2 ≠ id) (budgets d))
                   (budgets_seq d))
  end.

(** The key of the [UNIQUE (category_id, month)] constraint of [budgets]. *)
Definition budget_key_is (c : Z) (m : string) (r : budget_row) : Prop :=
  bud_category_id r = c ∧ bud_month r = m.

Global Instance budget_key_is_dec c m r : Decision (budget_key_is c m r).
Proof. unfold budget_key_is. apply _. Defined.

(** [INSERT INTO budgets (category_id, month, amount) VALUES (?, ?, ?)
     ON CONFLICT(category_id, month) DO UPDATE SET amount = excluded.amount].
    The foreign key requires the category; a row with the same key is updated
    in place, otherwise a row is inserted under a new id.  The id counter
    advances either way: the engine draws the id before it meets the
    conflict. *)
Definition sql_upsert_budget (c : Z) (m : string) (amount : Decimal)
  : cursor unit := λ d,
  if decide (is_Some (categories d !! c)) then
    let id := next_rowid (budgets d) (budgets_seq d) in
    if decide (map_Exists (λ _ r, budget_key_is c m r) (budgets d))
    then inr (tt, with_budgets
                    ((λ r, if decide (budget_key_is c m r)
                           then mkBudget c m amount else r) <$> budgets d)
                    id d)
    else inr (tt, with_budgets (<[id := mkBudget c m amount]> (budgets d)) id d)
  else inl IntegrityError.

(** The two foreign keys of a transaction row: the account must exist, and
    so must the category when the reference is not NULL. *)
Definition transaction_fk_ok (d : db) (r : transaction_row) : Prop :=
  is_Some (accounts d !! tx_account_id r) ∧
  match tx_category_id r with
  | None => True
  | Some c => is_Some (categories d !! c)
  end.

Global Instance transaction_fk_ok_dec d r : Decision (transaction_fk_ok d r).
Proof. unfold transaction_fk_ok. destruct (tx_category_id r); apply _. Defined.

(** [INSERT INTO transactions (account_id, date, description, amount,
    category_id) VALUES (?, ?, ?, ?, ?)], yielding [cursor.lastrowid].  An
    [AUTOINCREMENT] table whose largest id was used takes no more rows: the
    engine reports that the database is full. *)
Definition sql_insert_transaction (r : transaction_row) : cursor Z := λ d,
  if decide (transaction_fk_ok d r) then
    let id := next_rowid (transactions d) (transactions_seq d) in
    if decide (int64 id)
    then inr (id, with_transactions (<[id := r]> (transactions d)) id d)
    else inl OperationalError
  else inl IntegrityError.

(** [UPDATE transactions SET account_id = ?, date = ?, description = ?,
    amount = ?, category_id = ? WHERE id = ?], yielding [cursor.rowcount]. *)
Definition sql_update_transaction (id : Z) (r : transaction_row) : cursor Z := λ d,
  match transactions d !! id with
  | None => inr (0, d)
  | Some _ =>
      if decide (transaction_fk_ok d r)
      then inr (1, with_transactions (<[id := r]> (transactions d))
                                     (transactions_seq d) d)
      else inl IntegrityError
  end.

(** [DELETE FROM transactions WHERE id = ?], yielding [cursor.rowcount]. *)
Definition sql_delete_transaction (id : Z) : cursor Z := λ d,
  inr (if decide (is_Some (transactions d !! id)) then 1 else 0,
       with_transactions (delete id (transactions d)) (transactions_seq d) d).

(** [INSERT INTO accounts (name, initial_balance) VALUES (?, ?)], yielding
    [cursor.lastrowid]. *)
Definition sql_insert_account (name : string) (balance : Decimal) : cursor Z := λ d,
  if decide (account_name_taken (accounts d) name) then inl IntegrityError
  else
    let id := next_rowid (accounts d) (accounts_seq d) in
    if decide (int64 id)
    then inr (id, with_accounts (<[id := mkAccount name balance]> (accounts d))
                                id d)
    else inl OperationalError.

(** The rows of a table, without their ids. *)
Definition rows {A} (t : gmap Z A) : list A := (map_to_list t).*2.

Definition with_categories_seq (t : gmap Z category_row) (s : Z) (d : db) : db :=
  mkDb (accounts d) (accounts_seq d) t s (transactions d)
       (transactions_seq d) (budgets d) (budgets_seq d).

(** Some category holds the name. *)
Definition category_name_in_use (t : gmap Z category_row) (name : string)
  : Prop :=
  map_Exists (λ _ r, nocase_eq (cat_name r) name) t.

(** Some account other than the row [self] holds the name. *)
Definition account_name_taken_by_other (t : gmap Z account_row) (self : Z)
    (name : string) : Prop :=
  map_Exists (λ k r, k ≠ self ∧ nocase_eq (acc_name r) name) t.

Global Instance category_name_in_use_dec t name :
  Decision (category_name_in_use t name).
Proof. unfold category_name_in_use. apply _. Defined.
Global Instance account_name_taken_by_other_dec t self name :
  Decision (account_name_taken_by_other t self name).
Proof. unfold account_name_taken_by_other. apply _. Defined.

(** [INSERT INTO categories (name, type) VALUES (?, ?)], yielding
    [cursor.lastrowid]. *)
Definition sql_insert_category (name ty : string) : cursor Z := λ d,
  if decide (category_type_ok ty ∧ ¬ category_name_in_use (categories d) name)
  then
    let id := next_rowid (categories d) (categories_seq d) in
    inr (id, with_categories_seq (<[id := mkCategory name ty]> (categories d))
                                 id d)
  else inl IntegrityError.

(** [UPDATE accounts SET name = ?, initial_balance = ? WHERE id = ?],
    yielding [cursor.rowcount]. *)
Definition sql_update_account (id : Z) (name : string) (balance : Decimal)
  : cursor Z := λ d,
  match accounts d !! id with
  | None => inr (0, d)
  | Some _ =>
      if decide (account_name_taken_by_other (accounts d) id name)
      then inl IntegrityError
      else inr (1, with_accounts (<[id := mkAccount name balance]> (accounts d))
                                 (accounts_seq d) d)
  end.

(** [DELETE FROM accounts WHERE id = ?] with the action of the foreign key
    of [transactions]: the transactions of the account are deleted
    ([ON DELETE CASCADE]).  Yields [cursor.rowcount]. *)
Definition sql_delete_account (id : Z) : cursor Z := λ d,
  match accounts d !! id with
  | None => inr (0, d)
  | Some _ =>
      inr (1, mkDb (delete id (accounts d)) (accounts_seq d)
                   (categories d) (categories_seq d)
                   (filter (λ kv, tx_account_id kv.2 ≠ id) (transactions d))
                   (transactions_seq d)
                   (budgets d) (budgets_seq d))
  end.

(** ** Category functions *)

Definition update_category (st : storage) (category_id : Z)
    (new_name new_type : string) (d : db) : bool * db :=
  let cleaned_name := PyStr.strip new_name in
  let cleaned_type := PyStr.lower (PyStr.strip new_type) in
  if decide (cleaned_name = "") then (false, d)
  else if decide (PyStr.lower cleaned_name = "uncategorized") then (false, d)
  else if decide (cleaned_type ∉ ["expense"; "income"]) then (false, d)
  else
    try_except st
      (original_cat ← query (λ d, categories d !! category_id);
       match original_cat with
       | None => mret false
       | Some row =>
           if decide (PyStr.lower (cat_name row) = "uncategorized")
           then mret false
           else
             rowcount ← sql_update_category category_id cleaned_name cleaned_type;
             mret (bool_decide (rowcount > 0))
       end)
      false d.

Definition delete_category (st : storage) (category_id : Z) (d : db)
  : bool * db :=
  try_except st
    (cat ← query (λ d, categories d !! category_id);
     match cat with
     | None => mret false
     | Some row =>
         if decide (PyStr.lower (cat_name row) = "uncategorized")
         then mret false
         else
           rowcount ← sql_delete_category category_id;
           mret (bool_decide (rowcount > 0))
     end)
    false d.

Definition add_category (st : storage) (name type : string) (d : db)
  : option Z * db :=
  let cleaned_name := PyStr.strip name in
  try_except st
    (lastrowid ← sql_insert_category cleaned_name type;
     mret (Some lastrowid))
    None d.

(** ** Budget functions *)

(** [len(month_str) == 7 and month_str[4] == '-'] *)
Definition month_shape_ok (month_str : string) : bool :=
  bool_decide (PyStr.len month_str = 7) &&
  bool_decide (PyStr.index month_str 4 = Some "-"%char).

(** The amount is clamped and quantized before the [try]: an exception of
    [quantize] leaves the function whatever the storage does. *)
Definition set_budget (st : storage) (category_id : Z) (month_str : string)
    (amount : Decimal) (d : db) : outcome bool * db :=
  match quantize (py_max Decimal_0_00 amount) with
  | inl e => (Raised e, d)
  | inr budget_amount =>
      try_except_sqlite3 st
        (cat_result ← execute [category_id]
                        (query (λ d, categories d !! category_id));
         match cat_result with
         | None => mret false
         | Some row =>
             if decide (cat_type row ≠ "expense") then mret false
             else if negb (month_shape_ok month_str) then mret false
             else
               _ ← execute [category_id]
                     (sql_upsert_budget category_id month_str budget_amount);
               mret true
         end)
        false d
  end.

(** ** Transaction functions *)

(** The check both writers make of a supplied category id:
    [SELECT 1 FROM categories WHERE id = ?], and NULL when no row answers. *)
Definition checked_category (category_id : option Z) : block (option Z) :=
  match category_id with
  | None => mret None
  | Some c =>
      found ← execute [c] (query (λ d, categories d !! c));
      match found with
      | None => mret None
      | Some _ => mret (Some c)
      end
  end.

Definition add_transaction (st : storage) (account_id : Z)
    (date_str description : string) (amount : Decimal)
    (category_id : option Z) (d : db) : outcome (option Z) * db :=
  let cleaned_desc := PyStr.strip description in
  try_except_sqlite3 st
    (amount_quantized ← py (quantize amount);
     category_id ← checked_category category_id;
     lastrowid ← execute (account_id :: option_list category_id)
       (sql_insert_transaction
          (mkTransaction account_id date_str cleaned_desc amount_quantized
                         category_id));
     mret (Some lastrowid))
    None d.

Definition update_transaction (st : storage) (transaction_id account_id : Z)
    (date_str description : string) (amount : Decimal)
    (category_id : option Z) (d : db) : outcome bool * db :=
  let cleaned_desc := PyStr.strip description in
  try_except_sqlite3 st
    (amount_quantized ← py (quantize amount);
     category_id ← checked_category category_id;
     rowcount ← execute (account_id :: option_list category_id
                         ++ [transaction_id])
       (sql_update_transaction transaction_id
          (mkTransaction account_id date_str cleaned_desc amount_quantized
                         category_id));
     mret (bool_decide (rowcount > 0)))
    false d.

Definition delete_transaction (st : storage) (transaction_id : Z) (d : db)
  : outcome bool * db :=
  try_except_sqlite3 st
    (rowcount ← execute [transaction_id]
                  (sql_delete_transaction transaction_id);
     mret (bool_decide (rowcount > 0)))
    false d.

(** ** Account functions *)

Definition add_account (st : storage) (name : string)
    (initial_balance : Decimal) (d : db) : outcome (option Z) * db :=
  let cleaned_name := PyStr.strip name in
  try_except_sqlite3 st
    (balance_quantized ← py (quantize initial_balance);
     lastrowid ← execute [] (sql_insert_account cleaned_name balance_quantized);
     mret (Some lastrowid))
    None d.

Definition update_account (st : storage) (account_id : Z) (new_name : string)
    (new_initial_balance : Decimal) (d : db) : outcome bool * db :=
  let cleaned_name := PyStr.strip new_name in
  try_except_sqlite3 st
    (balance_quantized ← py (quantize new_initial_balance);
     rowcount ← execute [account_id]
                  (sql_update_account account_id cleaned_name
                                      balance_quantized);
     mret (bool_decide (rowcount > 0)))
    false d.

Definition delete_account (st : storage) (account_id : Z) (d : db)
  : outcome bool * db :=
  try_except_sqlite3 st
    (rowcount ← execute [account_id] (sql_delete_account account_id);
     mret (bool_decide (rowcount > 0)))
    false d.

(** [ORDER BY name COLLATE NOCASE]: the ASCII-folded names in byte order. *)
Definition nocase_le (a b : string) : Prop :=
  String.leb (PyStr.lower a) (PyStr.lower b) = true.

Global Instance nocase_le_dec a b : Decision (nocase_le a b).
Proof. unfold nocase_le. apply _. Defined.


(** The [WHERE type = ?] clause of [get_categories], added only when the
    argument is one of the two known types. *)
Definition type_selected (category_type : option string) (r : category_row)
  : Prop :=
  match category_type with
  | Some ty =>
      if decide (ty ∈ ["expense"; "income"]) then cat_type r = ty else True
  | None => True
  end.

Global Instance type_selected_dec category_type r :
  Decision (type_selected category_type r).
Proof.
  unfold type_selected. destruct category_type; [case_decide |]; apply _.
Defined.


(** ** Reading a transaction *)

(** [IFNULL(c.name, 'Uncategorized')] over
    [transactions t LEFT JOIN categories c ON t.category_id = c.id] *)
Definition category_name (d : db) (t : transaction_row) : string :=
  match tx_category_id t ≫= (λ c, categories d !! c) with
  | Some c => cat_name c
  | None => "Uncategorized"
  end.



(** The SQL operator [LIKE] on text: [%] stands for any run of characters,
    [_] for one character, and letters of the ASCII range match in either
    case. *)
Fixpoint sql_like (pattern : string) : string → bool :=
  match pattern with
  | EmptyString => λ s, bool_decide (s = EmptyString)
  | String p pattern' =>
      if decide (p = "%"%char) then
        fix any_run (s : string) : bool :=
          sql_like pattern' s ||
          match s with
          | EmptyString => false
          | String _ s' => any_run s'
          end
      else if decide (p = "_"%char) then
        λ s, match s with
             | EmptyString => false
             | String _ s' => sql_like pattern' s'
             end
      else
        λ s, match s with
             | EmptyString => false
             | String a s' =>
                 bool_decide (PyStr.lower_ascii a = PyStr.lower_ascii p) &&
                 sql_like pattern' s'
             end
  end.

(** [f"{month_str}-%"] *)
Definition date_pattern (month_str : string) : string :=
  month_str +:+ "-%".

(** ** The engine's aggregate *)

(** The statements of the repository that ask for [SUM(amount)]. *)
Inductive sum_query : Type :=
| account_total
| month_income
| month_expense.

(** [SUM(amount)] over the rows a statement selects, as the value the
    converter gives the caller.  The rows are given by id with their date
    and amount: for one statement, the order in which the engine adds them
    is fixed by these.  SQL makes the sum of no row NULL. *)
Class Engine : Type := {
  SUM : sum_query → gmap Z (string * Decimal) → option Decimal;
  SUM_no_row : ∀ q, SUM q ∅ = None
}.

(** The rows of [transactions] that pass a [WHERE] clause, as the aggregate
    receives them. *)
Definition selected (P : transaction_row → Prop) `{∀ t, Decision (P t)}
    (d : db) : gmap Z (string * Decimal) :=
  (λ t, (tx_date t, tx_amount t)) <$> filter (λ kv, P kv.2) (transactions d).

Section engine.

Context {engine : Engine}.

(** ** Balance calculation *)

(** [SELECT SUM(amount) FROM transactions WHERE account_id = ?] *)
Definition sum_of_account (account_id : Z) (d : db) : option Decimal :=
  SUM account_total (selected (λ t, tx_account_id t = account_id) d).

(** The [initial_balance] column is [NOT NULL] and read through the
    converter, so the [isinstance] test on it always holds; the sum is NULL
    over no transaction, and then nothing is added. *)
Definition get_account_current_balance (st : storage) (account_id : Z)
    (d : db) : outcome Decimal :=
  (try_except_sqlite3 st
     (result_initial ← execute [account_id]
                         (query (λ d, accounts d !! account_id));
      match result_initial with
      | None => mret Decimal_0_00
      | Some row =>
          let current_balance := acc_initial_balance row in
          transaction_sum ← execute [account_id]
                              (query (sum_of_account account_id));
          let current_balance :=
            match transaction_sum with
            | Some s => Decimal_add current_balance s
            | None => current_balance
            end in
          py (quantize current_balance)
      end)
     Decimal_0_00 d).1.









(** [SELECT SUM(amount) FROM transactions WHERE date LIKE ? AND
    CAST(amount AS REAL) > 0], and the same with [< 0]. *)
Definition income_of_month (month_str : string) (d : db) : option Decimal :=
  SUM month_income
      (selected (λ t, sql_like (date_pattern month_str) (tx_date t) ∧
                      Decimal_gt (tx_amount t) (mkDecimal 0 0)) d).

Definition expense_of_month (month_str : string) (d : db) : option Decimal :=
  SUM month_expense
      (selected (λ t, sql_like (date_pattern month_str) (tx_date t) ∧
                      Decimal_lt (tx_amount t) (mkDecimal 0 0)) d).

Record flow_summary : Type := mkSummary {
  total_income : Decimal;
  total_expense : Decimal
}.

(** The two totals are read inside the [try]; they are quantized after it,
    when the dictionary is built. *)
Definition get_income_expense_summary_for_month (st : storage)
    (month_str : string) (d : db) : outcome flow_summary :=
  let read :=
    (try_except st
       (result_income ← query (income_of_month month_str);
        let income := default Decimal_0_00 result_income in
        result_expense ← query (expense_of_month month_str);
        let expense :=
          match result_expense with
          | Some total => Decimal_abs total
          | None => Decimal_0_00
          end in
        mret (Some (income, expense)))
       None d).1 in
  match read with
  | None => Returned (mkSummary Decimal_0_00 Decimal_0_00)
  | Some (income, expense) =>
      match quantize income with
      | inl e => Raised e
      | inr i =>
          match quantize expense with
          | inl e => Raised e
          | inr x => Returned (mkSummary i x)
          end
      end
  end.

End engine.

Record budget_line : Type := mkBudgetLine {
  bl_id : Z;
  bl_category_id : Z;
  bl_category_name : string;
  bl_category_type : string;
  bl_month : string;
  bl_amount : Decimal
}.

(** [budgets b JOIN categories c ON b.category_id = c.id WHERE b.month = ?
    AND c.type = 'expense'], one line for a budget row that passes. *)
Definition budget_line_of (month_str : string) (d : db)
    (kv : Z * budget_row) : option budget_line :=
  c ← categories d !! bud_category_id kv.2;
  if decide (bud_month kv.2 = month_str ∧ cat_type c = "expense")
  then Some (mkBudgetLine kv.1 (bud_category_id kv.2) (cat_name c) (cat_type c)
                          (bud_month kv.2) (bud_amount kv.2))
  else None.

Definition get_budgets_for_month (st : storage) (month_str : string) (d : db)
  : list budget_line :=
  (try_except st
     (query (λ d,
        merge_sort (λ x y, nocase_le (bl_category_name x) (bl_category_name y))
                   (omap (budget_line_of month_str d)
                         (map_to_list (budgets d)))))
     [] d).1.


(** ** Monetary text *)

(** The exception [decimal.InvalidOperation]. *)
Inductive InvalidOperation : Type := ConversionSyntax.

Section parse_with_default.

(** The values of the library's Decimal type and its constructor from
  text, which either returns a value or raises [InvalidOperation]. *)
Context {PyDecimal : Type}.
Variable Decimal_of_str : string → InvalidOperation + PyDecimal.

(** [None] is the absent argument; the result is the value returned or
  the exception that leaves the function. *)
Definition _parse_decimal_from_str (value_str : option string)
  (default : PyDecimal) : InvalidOperation + PyDecimal :=
match value_str with
| None => inr default
| Some s =>
    let cleaned_str := PyStr.strip s in
    if decide (cleaned_str = "") then inr default
    else
      match Decimal_of_str (PyStr.replace "," "." cleaned_str) with
      | inr v => inr v
      | inl ConversionSyntax => inr default
      end
end.

End parse_with_default.

(** A constructor to run the parser with: it reads the plain numerals of
    the library's grammar, an optional sign, digits and at most one point,
    and raises on every other text (the library also reads exponents,
    underscores, NaN and Infinity). *)
Definition digit_value (a : ascii) : option Z :=
  let n := Z.of_nat (nat_of_ascii a) in
  if ((48 <=? n) && (n <=? 57))%Z then Some (n - 48) else None.

Fixpoint numeral (s : string) (seen_point : bool) (ndigits : nat) (c e : Z)
  : option Decimal :=
  match s with
  | EmptyString =>
      match ndigits with O => None | S _ => Some (mkDecimal c e) end
  | String a s' =>
      if decide (a = "."%char)
      then if seen_point then None else numeral s' true ndigits c e
      else
        match digit_value a with
        | Some v =>
            numeral s' seen_point (S ndigits) (10 * c + v)
                    (if seen_point then e - 1 else e)
        | None => None
        end
  end.

Definition plain_numeral (s : string) : InvalidOperation + Decimal :=
  let '(negative, body) :=
    match s with
    | String "-" r => (true, r)
    | String "+" r => (false, r)
    | _ => (false, s)
    end in
  match numeral body false 0 0 0 with
  | Some d => inr (if negative : bool then mkDecimal (- coeff d) (exp d) else d)
  | None => inl ConversionSyntax
  end.

(** ** Specification-side notions *)

(** The protected default category, recognised as the code recognises it:
    by its name, whatever the case of its letters. *)
Definition is_uncategorized (r : category_row) : Prop :=
  PyStr.lower (cat_name r) = "uncategorized".

(** Rounding of a rational amount to cents, ties away from zero: the
    glossary's "quantize". *)
Definition round_to_cents (q : Q) : Q :=
  if Qle_bool 0 q
  then (inject_Z (Qfloor (q * 100 + (1 # 2))) / 100)%Q
  else (- (inject_Z (Qfloor (- q * 100 + (1 # 2))) / 100))%Q.

(** The sum of rational amounts. *)
Definition Qsum (l : list Q) : Q := foldr Qplus 0%Q l.


(** The amount of a transaction, as a rational. *)
Definition amount_of (t : transaction_row) : Q := value (tx_amount t).

(** The [YYYY-MM] shape as the specification words it: length 7 and a
    hyphen at position 4. *)
Definition month_shape (m : string) : Prop :=
  String.length m = 7%nat ∧ String.get 4 m = Some "-"%char.

(** The reasons for which [set_budget] declines. *)
Definition budget_rejected (d : db) (category_id : Z) (m : string) : Prop :=
  match categories d !! category_id with
  | None => True
  | Some row => cat_type row ≠ "expense" ∨ ¬ month_shape m
  end.

Global Instance budget_rejected_dec d c m : Decision (budget_rejected d c m).
Proof.
  unfold budget_rejected, month_shape.
  destruct (categories d !! c); apply _.
Defined.

(** The [UNIQUE (category_id, month)] constraint of [budgets]. *)
Definition budgets_unique (t : gmap Z budget_row) : Prop :=
  ∀ k1 k2 r1 r2,
    t !! k1 = Some r1 → t !! k2 = Some r2 →
    bud_category_id r1 = bud_category_id r2 → bud_month r1 = bud_month r2 →
    k1 = k2.

(** The amounts [quantize] accepts: rounded to cents, the coefficient has
    at most 28 digits, that is, the value is below 10^26 in magnitude. *)
Definition quantizable (a : Decimal) : Prop :=
  Z.abs (coeff (to_cents a)) < 10 ^ prec.

Global Instance quantizable_dec a : Decision (quantizable a).
Proof. unfold quantizable. apply _. Defined.

Global Instance Qlt_decision (a b : Q) : Decision (a < b)%Q :=
  match Qlt_le_dec a b with
  | left H => left H
  | right H => right (Qle_not_lt _ _ H)
  end.

(** An engine that adds decimals exactly, to run the operations on. *)
Definition Decimal_sum (l : list Decimal) : Decimal :=
  foldr exact_add (mkDecimal 0 0) l.

Definition decimal_SUM (q : sum_query) (m : gmap Z (string * Decimal))
  : option Decimal :=
  match map_to_list m with
  | [] => None
  | l => Some (Decimal_sum (l.*2.*2))
  end.

Definition decimal_SUM_no_row (q : sum_query) : decimal_SUM q ∅ = None :=
  eq_refl.

Definition decimal_engine : Engine :=
  {| SUM := decimal_SUM; SUM_no_row := decimal_SUM_no_row |}.

(** A store used to run the operations on: the seeded category, two more
    categories, one account with two transactions, one budget. *)
Definition sample_db : db :=
  mkDb {[ 1 := mkAccount "Checking" (mkDecimal 10000 (-2)) ]} 1
       {[ 1 := mkCategory "Uncategorized" "expense";
          2 := mkCategory "Groceries" "expense";
          3 := mkCategory "Salary" "income" ]} 3
       {[ 1 := mkTransaction 1 "2024-01-05" "food" (mkDecimal (-2550) (-2)) (Some 2);
          2 := mkTransaction 1 "2024-01-10" "pay" (mkDecimal 100000 (-2)) (Some 3) ]} 2
       {[ 1 := mkBudget 2 "2024-01" (mkDecimal 30000 (-2)) ]} 1.

(** ** Calls and the constraints of the schema *)

(** A call of one of the writing functions of the repository. *)
Inductive call : Type :=
| AddAccount (name : string) (initial_balance : Decimal)
| UpdateAccount (account_id : Z) (new_name : string)
                (new_initial_balance : Decimal)
| DeleteAccount (account_id : Z)
| AddCategory (name type : string)
| UpdateCategory (category_id : Z) (new_name new_type : string)
| DeleteCategory (category_id : Z)
| SetBudget (category_id : Z) (month_str : string) (amount : Decimal)
| AddTransaction (account_id : Z) (date_str description : string)
                 (amount : Decimal) (category_id : option Z)
| UpdateTransaction (transaction_id account_id : Z)
                    (date_str description : string) (amount : Decimal)
                    (category_id : option Z)
| DeleteTransaction (transaction_id : Z).

(** The store a call leaves. *)
Definition run (st : storage) (c : call) (d : db) : db :=
  match c with
  | AddAccount name b => (add_account st name b d).2
  | UpdateAccount id name b => (update_account st id name b d).2
  | DeleteAccount id => (delete_account st id d).2
  | AddCategory name ty => (add_category st name ty d).2
  | UpdateCategory id name ty => (update_category st id name ty d).2
  | DeleteCategory id => (delete_category st id d).2
  | SetBudget c m a => (set_budget st c m a d).2
  | AddTransaction acc date desc a cat =>
      (add_transaction st acc date desc a cat d).2
  | UpdateTransaction id acc date desc a cat =>
      (update_transaction st id acc date desc a cat d).2
  | DeleteTransaction id => (delete_transaction st id d).2
  end.

(** The store a sequence of calls leaves, each with its own storage
    condition. *)
Definition run_all (cs : list (storage * call)) (d : db) : db :=
  foldl (λ d sc, run sc.1 sc.2 d) d cs.

(** The foreign keys: a transaction belongs to an account of the store and
    its category, when it has one, is a category of the store; a budget
    belongs to a category of the store. *)
Definition references_hold (d : db) : Prop :=
  map_Forall (λ _ t, transaction_fk_ok d t) (transactions d) ∧
  map_Forall (λ _ b, is_Some (categories d !! bud_category_id b)) (budgets d).

(** [UNIQUE COLLATE NOCASE] on the names of a table. *)
Definition names_unique {A} (name_of : A → string) (t : gmap Z A) : Prop :=
  ∀ k1 k2 r1 r2,
    t !! k1 = Some r1 → t !! k2 = Some r2 →
    nocase_eq (name_of r1) (name_of r2) → k1 = k2.

(** The three uniqueness constraints and the CHECK on the category type. *)
Definition constraints_hold (d : db) : Prop :=
  names_unique acc_name (accounts d) ∧
  names_unique cat_name (categories d) ∧
  budgets_unique (budgets d) ∧
  map_Forall (λ _ c, category_type_ok (cat_type c)) (categories d).

(** Every stored amount has exactly two places. *)
Definition amounts_in_cents (d : db) : Prop :=
  map_Forall (λ _ a, exp (acc_initial_balance a) = -2) (accounts d) ∧
  map_Forall (λ _ t, exp (tx_amount t) = -2) (transactions d) ∧
  map_Forall (λ _ b, exp (bud_amount b) = -2) (budgets d).

(** The protected default category is in the store. *)
Definition has_uncategorized (d : db) : Prop :=
  map_Exists (λ _ row, is_uncategorized row) (categories d).

Global Instance is_uncategorized_dec row : Decision (is_uncategorized row).
Proof. unfold is_uncategorized. apply _. Defined.

Global Instance references_hold_dec d : Decision (references_hold d).
Proof. unfold references_hold. apply _. Defined.

Global Instance names_unique_dec {A} (name_of : A → string) (t : gmap Z A) :
  Decision (names_unique name_of t).
Proof.
  refine (cast_if (decide (map_Forall (λ k1 r1,
            map_Forall (λ k2 r2,
              nocase_eq (name_of r1) (name_of r2) → k1 = k2) t) t)));
    unfold names_unique, map_Forall in *; eauto.
Defined.

Global Instance budgets_unique_dec (t : gmap Z budget_row) :
  Decision (budgets_unique t).
Proof.
  refine (cast_if (decide (map_Forall (λ k1 r1,
            map_Forall (λ k2 r2,
              bud_category_id r1 = bud_category_id r2 →
              bud_month r1 = bud_month r2 → k1 = k2) t) t)));
    unfold budgets_unique, map_Forall in *; eauto.
Defined.

Global Instance constraints_hold_dec d : Decision (constraints_hold d).
Proof. unfold constraints_hold. apply _. Defined.

Global Instance amounts_in_cents_dec d : Decision (amounts_in_cents d).
Proof. unfold amounts_in_cents. apply _. Defined.

Global Instance has_uncategorized_dec d : Decision (has_uncategorized d).
Proof. unfold has_uncategorized. apply _. Defined.

(** The category reference the transaction writers store for a supplied
    category id: the id when it is a category of the store, NULL otherwise. *)
Definition stored_category (d : db) (category_id : option Z) : option Z :=
  match category_id with
  | Some c => if decide (is_Some (categories d !! c)) then Some c else None
  | None => None
  end.

(** A month string without the two wildcards of LIKE. *)
Fixpoint wildcard_free (s : string) : bool :=
  match s with
  | EmptyString => true
  | String a s' =>
      negb (Ascii.eqb a "%") && negb (Ascii.eqb a "_") && wildcard_free s'
  end.

(** The transactions of a month: the date starts with the month and a
    hyphen, letters compared without case. *)
Definition in_month (month_str : string) (t : transaction_row) : Prop :=
  String.prefix (PyStr.lower (month_str +:+ "-")) (PyStr.lower (tx_date t))
  = true.

Global Instance in_month_dec month_str t : Decision (in_month month_str t).
Proof. unfold in_month. apply _. Defined.

(** A sequence of calls to run on the sample store: a category and an
    account are deleted, a transaction is added with a stale category, a
    budget is set, one call meets a storage fault. *)
Definition sample_calls : list (storage * call) :=
  [ (Healthy, AddAccount "Savings" (mkDecimal 12345 (-3)));
    (Healthy, AddTransaction 2 "2024-02-01" " rent " (mkDecimal (-700) 0)
                             (Some 42));
    (Healthy, SetBudget 2 "2024-02" (mkDecimal 150 0));
    (Faulty, AddCategory "Rent" "expense");
    (Healthy, UpdateCategory 3 "salary" " Income ");
    (Healthy, DeleteCategory 2);
    (Healthy, UpdateAccount 2 "checking" (mkDecimal 1 0));
    (Healthy, DeleteAccount 1) ].

(** * Properties *)

(** ** Decimal arithmetic against the rationals *)

Lemma ten_pow_nonzero (e : Z) : ¬ ((10 # 1) ^ e == 0)%Q.
Proof. apply Qpower_not_0. discriminate. Qed.

Lemma ten_pow_pos (e : Z) : (0 < (10 # 1) ^ e)%Q.
Proof. apply Qpower_0_lt. reflexivity. Qed.

Lemma inject_Z_ten_pow (n : Z) : 0 <= n → (inject_Z (10 ^ n) == (10 # 1) ^ n)%Q.
Proof. intros Hn. apply (Zpower_Qpower 10 n Hn). Qed.

Lemma value_rescale (d : Decimal) (e : Z) :
  e <= exp d → (inject_Z (rescale d e) * (10 # 1) ^ e == value d)%Q.
Proof.
  intros He. unfold rescale, value.
  rewrite inject_Z_mult, inject_Z_ten_pow by lia.
  rewrite <- Qmult_assoc.
  rewrite <- (Qpower_plus (10 # 1) (exp d - e) e) by discriminate.
  replace (exp d - e + e) with (exp d) by lia. reflexivity.
Qed.

Lemma value_add (a b : Decimal) :
  (value (exact_add a b) == value a + value b)%Q.
Proof.
  rewrite <- (value_rescale a (Z.min (exp a) (exp b))) by lia.
  rewrite <- (value_rescale b (Z.min (exp a) (exp b))) by lia.
  unfold exact_add, value at 1. simpl.
  rewrite inject_Z_plus. ring.
Qed.

Lemma Qcompare_scale (x y : Z) (p : Q) :
  (0 < p)%Q → (inject_Z x * p ?= inject_Z y * p)%Q = (x ?= y)%Z.
Proof.
  intros Hp. destruct (Z.compare_spec x y) as [-> | Hlt | Hgt].
  - apply Qeq_alt. reflexivity.
  - apply Qlt_alt. apply Qmult_lt_compat_r; [exact Hp |].
    rewrite <- Zlt_Qlt. exact Hlt.
  - apply Qgt_alt. apply Qmult_lt_compat_r; [exact Hp |].
    rewrite <- Zlt_Qlt. exact Hgt.
Qed.

Lemma Decimal_compare_value (a b : Decimal) :
  Decimal_compare a b = (value a ?= value b)%Q.
Proof.
  unfold Decimal_compare.
  rewrite <- (Qcompare_scale _ _ ((10 # 1) ^ Z.min (exp a) (exp b)))
    by apply ten_pow_pos.
  apply Qcompare_comp; apply value_rescale; lia.
Qed.

Lemma round_half_up_floor (n m : Z) :
  0 < m →
  round_half_up n m =
  if (0 <=? n)%Z then Qfloor (inject_Z n / inject_Z m + (1 # 2))
  else - Qfloor (- (inject_Z n / inject_Z m) + (1 # 2)).
Proof.
  intros Hm. unfold round_half_up.
  assert (Hm' : ¬ (inject_Z m == 0)%Q).
  { change 0%Q with (inject_Z 0). rewrite inject_Z_injective. lia. }
  destruct (Z.leb_spec 0 n) as [Hn | Hn].
  - rewrite Z.abs_eq by exact Hn.
    transitivity ((2 * n + m) / (2 * m)).
    + destruct (Z.eq_dec n 0) as [-> | Hne].
      * simpl. rewrite Z.div_small by lia. reflexivity.
      * rewrite Z.sgn_pos by lia. lia.
    + rewrite Zdiv_Qdiv. apply Qfloor_comp.
      rewrite inject_Z_plus, !inject_Z_mult. field. exact Hm'.
  - rewrite Z.abs_neq by lia. rewrite Z.sgn_neg by exact Hn.
    transitivity (- ((2 * - n + m) / (2 * m))); [lia |].
    f_equal. rewrite Zdiv_Qdiv. apply Qfloor_comp.
    rewrite inject_Z_plus, !inject_Z_mult, inject_Z_opp. field. exact Hm'.
Qed.

Lemma round_to_cents_ratio (q : Q) (n m : Z) :
  0 < m →
  (q * 100 == inject_Z n / inject_Z m)%Q →
  (round_to_cents q == inject_Z (round_half_up n m) / 100)%Q.
Proof.
  intros Hm Hq.
  assert (Hm' : (0 < inject_Z m)%Q).
  { change 0%Q with (inject_Z 0). rewrite <- Zlt_Qlt. exact Hm. }
  assert (Hn : (inject_Z n == q * 100 * inject_Z m)%Q).
  { rewrite Hq. field. intros E. rewrite E in Hm'. discriminate. }
  rewrite round_half_up_floor by exact Hm. unfold round_to_cents.
  destruct (Qle_bool 0 q) eqn:Hsign.
  - apply Qle_bool_iff in Hsign.
    assert (0 <= n) as Hn0.
    { rewrite Zle_Qle, Hn. change (inject_Z 0) with 0%Q.
      apply Qmult_le_0_compat; [| apply Qlt_le_weak; exact Hm'].
      apply Qmult_le_0_compat; [exact Hsign | discriminate]. }
    destruct (Z.leb_spec 0 n); [| lia].
    rewrite Hq. reflexivity.
  - assert (Hneg : (q < 0)%Q).
    { apply Qnot_le_lt. intros Hle. apply Qle_bool_iff in Hle. congruence. }
    assert (n < 0) as Hn0.
    { rewrite Zlt_Qlt, Hn. change (inject_Z 0) with 0%Q.
      rewrite <- (Qmult_0_l (inject_Z m)).
      apply Qmult_lt_compat_r; [exact Hm' |].
      rewrite <- (Qmult_0_l 100).
      apply Qmult_lt_compat_r; [reflexivity | exact Hneg]. }
    destruct (Z.leb_spec 0 n); [lia |].
    rewrite inject_Z_opp.
    assert (Hq' : (- q * 100 == - (inject_Z n / inject_Z m))%Q)
      by (rewrite <- Hq; ring).
    rewrite Hq'. unfold Qdiv. ring.
Qed.

Lemma exp_quantize (d : Decimal) : exp (to_cents d) = -2.
Proof. unfold to_cents, quantize_exp. destruct (_ <=? _)%Z; reflexivity. Qed.

Lemma coeff_quantize (d : Decimal) :
  coeff (to_cents d) =
  if (-2 <=? exp d)%Z then rescale d (-2)
  else round_half_up (coeff d) (10 ^ (-2 - exp d)).
Proof.
  unfold to_cents, quantize_exp. simpl exp.
  destruct (_ <=? _)%Z; reflexivity.
Qed.

Lemma round_half_up_1 (n : Z) : round_half_up n 1 = n.
Proof.
  unfold round_half_up.
  replace ((2 * Z.abs n + 1) / (2 * 1)) with (Z.abs n).
  - rewrite Z.mul_comm. apply Z.abs_sgn.
  - apply Z.div_unique with (r := 1); lia.
Qed.

Lemma value_quantize (d : Decimal) :
  (value (to_cents d) == round_to_cents (value d))%Q.
Proof.
  unfold value at 1. rewrite exp_quantize, coeff_quantize.
  change ((10 # 1) ^ (-2))%Q with (1 # 100)%Q.
  destruct (Z.leb_spec (-2) (exp d)) as [He | He].
  - rewrite (round_to_cents_ratio (value d) (rescale d (-2)) 1) by
      (try lia; rewrite <- (value_rescale d (-2)) by lia;
       change ((10 # 1) ^ (-2))%Q with (1 # 100)%Q; field).
    rewrite round_half_up_1. field.
  - rewrite (round_to_cents_ratio (value d) (coeff d) (10 ^ (-2 - exp d))).
    + field.
    + apply Z.pow_pos_nonneg; lia.
    + unfold value. rewrite inject_Z_ten_pow by lia.
      replace (exp d) with (- (-2 - exp d) + -2) at 1 by lia.
      rewrite Qpower_plus by discriminate.
      rewrite Qpower_opp.
      change ((10 # 1) ^ (-2))%Q with (1 # 100)%Q.
      field. apply ten_pow_nonzero.
Qed.

Lemma value_Decimal_sum (l : list Decimal) :
  (value (Decimal_sum l) == Qsum (value <$> l))%Q.
Proof.
  induction l as [| x l IH]; [reflexivity |].
  simpl. rewrite value_add, IH. reflexivity.
Qed.

Global Instance round_to_cents_proper : Proper (Qeq ==> Qeq) round_to_cents.
Proof.
  intros p q Hpq. unfold round_to_cents.
  assert (Hb : Qle_bool 0 p = Qle_bool 0 q).
  { apply eq_true_iff_eq. rewrite !Qle_bool_iff, Hpq. reflexivity. }
  rewrite Hb. destruct (Qle_bool 0 q); rewrite Hpq; reflexivity.
Qed.

Lemma value_cents_inj (a b : Decimal) :
  exp a = -2 → exp b = -2 → (value a == value b)%Q → a = b.
Proof.
  destruct a as [ca ea], b as [cb eb]. simpl. intros -> -> H.
  f_equal. unfold value in H. simpl in H.
  apply Qmult_inj_r in H; [| discriminate].
  apply inject_Z_injective. exact H.
Qed.

Lemma quantize_value (a b : Decimal) :
  (value a == value b)%Q → to_cents a = to_cents b.
Proof.
  intros H. apply value_cents_inj; try apply exp_quantize.
  rewrite !value_quantize, H. reflexivity.
Qed.

Lemma context_round_fits (d : Decimal) :
  Z.abs (coeff d) < 10 ^ prec → context_round d = d.
Proof.
  intros H. unfold context_round.
  destruct (Z.ltb_spec (Z.abs (coeff d)) (10 ^ prec)); [reflexivity | lia].
Qed.


Lemma value_Decimal_abs (d : Decimal) :
  Z.abs (coeff d) < 10 ^ prec →
  (value (Decimal_abs d) == Qabs (value d))%Q.
Proof.
  intros Hfit. unfold Decimal_abs.
  rewrite context_round_fits by (cbn [coeff]; lia).
  unfold value. cbn [coeff exp].
  rewrite Qabs_Qmult. rewrite (Qabs_pos ((10 # 1) ^ exp d)).
  - apply Qmult_comp; [| reflexivity].
    unfold Qabs, inject_Z. reflexivity.
  - apply Qlt_le_weak, ten_pow_pos.
Qed.

Lemma Decimal_lt_value (a b : Decimal) :
  Decimal_lt a b = true ↔ (value a < value b)%Q.
Proof.
  unfold Decimal_lt. rewrite Decimal_compare_value, Qlt_alt.
  destruct (value a ?= value b)%Q; split; congruence.
Qed.

Lemma Decimal_lt_false_value (a b : Decimal) :
  Decimal_lt a b = false ↔ (value b <= value a)%Q.
Proof.
  rewrite <- not_true_iff_false, Decimal_lt_value.
  split; [apply Qnot_lt_le | apply Qle_not_lt].
Qed.

Lemma value_Decimal_0_00 : (value Decimal_0_00 == 0)%Q.
Proof. reflexivity. Qed.

Lemma value_py_max_0 (a : Decimal) :
  (value (py_max Decimal_0_00 a) == Qmax 0 (value a))%Q.
Proof.
  unfold py_max, Decimal_gt.
  destruct (Decimal_lt Decimal_0_00 a) eqn:E.
  - apply Decimal_lt_value in E. rewrite value_Decimal_0_00 in E.
    symmetry. apply Q.max_r. apply Qlt_le_weak. exact E.
  - apply Decimal_lt_false_value in E. rewrite value_Decimal_0_00 in *.
    symmetry. apply Q.max_l. exact E.
Qed.


(** ** The method [quantize] *)

Lemma quantize_returns (d q : Decimal) :
  quantize d = inr q ↔ q = to_cents d ∧ Z.abs (coeff (to_cents d)) < 10 ^ prec.
Proof.
  unfold quantize.
  destruct (Z.ltb_spec (Z.abs (coeff (to_cents d))) (10 ^ prec)).
  - split; [intros [= <-]; split; [reflexivity | assumption] |].
    intros [-> _]. reflexivity.
  - split; [discriminate | intros [_ ?]; lia].
Qed.

Lemma quantize_raises (d : Decimal) (e : exception) :
  quantize d = inl e ↔
  e = decimal_InvalidOperation ∧ 10 ^ prec <= Z.abs (coeff (to_cents d)).
Proof.
  unfold quantize.
  destruct (Z.ltb_spec (Z.abs (coeff (to_cents d))) (10 ^ prec)).
  - split; [discriminate | intros [_ ?]; lia].
  - split; [intros [= <-]; split; [reflexivity | assumption] |].
    intros [-> _]. reflexivity.
Qed.







Lemma quantize_quantizable (x : Decimal) :
  quantizable x → quantize x = inr (to_cents x).
Proof. intros H. apply quantize_returns. split; [reflexivity | exact H]. Qed.

Lemma quantize_not_quantizable (x : Decimal) :
  ¬ quantizable x → quantize x = inl decimal_InvalidOperation.
Proof.
  intros H. apply quantize_raises. split; [reflexivity |].
  unfold quantizable in H. lia.
Qed.

Lemma quantize_returned_quantizable (x q : Decimal) :
  quantize x = inr q → quantizable x ∧ q = to_cents x.
Proof. intros [-> H]%quantize_returns. split; [exact H | reflexivity]. Qed.

(** ** Connections *)


Lemma try_except_healthy {A} (body : cursor A) (failed : A) (d : db) :
  try_except Healthy body failed d =
  match body d with
  | inl _ => (failed, d)
  | inr (a, d') => (a, d')
  end.
Proof.
  unfold try_except, get_db_connection.
  destruct (body d) as [e | [a d']]; reflexivity.
Qed.

(** Run the block of a call the storage engine serves, down to its first
    statement. *)
Ltac run_block :=
  rewrite try_except_healthy; unfold mbind, cursor_bind, query.

(** A block that raises, or returns the failure value without writing,
    leaves the store as it was. *)
Lemma try_except_unchanged {A} st (body : cursor A) (failed : A) (d : db) :
  (∀ a d', body d = inr (a, d') → a = failed ∧ d' = d) →
  try_except st body failed d = (failed, d).
Proof.
  intros Hbody. destruct st; [| reflexivity].
  rewrite try_except_healthy.
  destruct (body d) as [e | [a d']] eqn:E; [reflexivity |].
  destruct (Hbody a d' eq_refl) as [-> ->]. reflexivity.
Qed.

Lemma db_eta (d : db) :
  mkDb (accounts d) (accounts_seq d) (categories d) (categories_seq d)
       (transactions d) (transactions_seq d) (budgets d) (budgets_seq d) = d.
Proof. destruct d; reflexivity. Qed.

(** ** Categories: the protected row *)

Section protected_category.

Variables (st : storage) (d : db) (category_id : Z).

Lemma update_category_declines_protected new_name new_type row :
categories d !! category_id = Some row →
is_uncategorized row →
update_category st category_id new_name new_type d = (false, d).
Proof.
intros Hrow Hprot. unfold update_category.
repeat case_decide; try reflexivity.
apply try_except_unchanged. intros a d'.
unfold mbind, cursor_bind, query. rewrite Hrow.
rewrite decide_True by exact Hprot.
intros [= <- <-]. done.
Qed.

Lemma update_category_declines_rename new_name new_type :
PyStr.lower (PyStr.strip new_name) = "uncategorized" →
update_category st category_id new_name new_type d = (false, d).
Proof.
intros Hname. unfold update_category.
case_decide; [reflexivity |].
rewrite decide_True by exact Hname. reflexivity.
Qed.

Lemma delete_category_declines_protected row :
categories d !! category_id = Some row →
is_uncategorized row →
delete_category st category_id d = (false, d).
Proof.
intros Hrow Hprot. unfold delete_category.
apply try_except_unchanged. intros a d'.
unfold mbind, cursor_bind, query. rewrite Hrow.
rewrite decide_True by exact Hprot.
intros [= <- <-]. done.
Qed.

(** The categories table after an update: the old one, or the old one with
  the target row rewritten, and then the target was not protected. *)
Lemma update_category_table new_name new_type :
let d' := (update_category st category_id new_name new_type d).2 in
categories d' = categories d ∨
∃ old new, categories d !! category_id = Some old ∧ ¬ is_uncategorized old ∧
           categories d' = <[category_id := new]> (categories d).
Proof.
unfold update_category.
repeat case_decide; try (left; reflexivity).
destruct st; [| left; reflexivity].
run_block.
destruct (categories d !! category_id) as [old |] eqn:Hold;
  [| left; reflexivity].
case_decide as Hprot; [left; reflexivity |].
unfold sql_update_category. rewrite Hold.
case_decide; [| left; reflexivity].
right. exists old. eexists. split; [reflexivity |]. split; [exact Hprot |].
reflexivity.
Qed.

(** The categories table after a delete: the old one, or the old one
  without the target row, and then the target was not protected. *)
Lemma delete_category_table :
let d' := (delete_category st category_id d).2 in
categories d' = categories d ∨
∃ old, categories d !! category_id = Some old ∧ ¬ is_uncategorized old ∧
       categories d' = delete category_id (categories d).
Proof.
unfold delete_category.
destruct st; [| left; reflexivity].
run_block.
destruct (categories d !! category_id) as [old |] eqn:Hold;
  [| left; reflexivity].
case_decide as Hprot; [left; reflexivity |].
unfold sql_delete_category. rewrite Hold.
right. exists old. split; [reflexivity |]. split; [exact Hprot |].
reflexivity.
Qed.

End protected_category.

(** C2.  Whatever the id, the new name and the new type, [update_category]
    and [delete_category] leave every row named 'Uncategorized' (in any
    letter case) as it was.  Both decline and leave the whole store unchanged
    when the target row is that row, and [update_category] also does when the
    new name, trimmed and folded, is 'uncategorized'. *)
Theorem uncategorized_is_protected :
  ∀ (st : storage) (d : db) (category_id : Z) (new_name new_type : string),
    let upd := update_category st category_id new_name new_type d in
    let del := delete_category st category_id d in
    (∀ k row, categories d !! k = Some row → is_uncategorized row →
              categories upd.2 !! k = Some row ∧
              categories del.2 !! k = Some row) ∧
    (∀ row, categories d !! category_id = Some row → is_uncategorized row →
            upd = (false, d) ∧ del = (false, d)) ∧
    (PyStr.lower (PyStr.strip new_name) = "uncategorized" → upd = (false, d)).
Proof.
  intros st d category_id new_name new_type upd del. subst upd del.
  split; [| split].
  - intros k row Hk Hprot. split.
    + pose proof (update_category_table st d category_id new_name new_type) as H.
      cbv zeta in H. destruct H as [-> | (old & new & Hold & Hnot & ->)];
        [exact Hk |].
      destruct (decide (category_id = k)) as [-> | Hne].
      * rewrite Hk in Hold. injection Hold as <-. contradiction.
      * rewrite lookup_insert_ne by exact Hne. exact Hk.
    + pose proof (delete_category_table st d category_id) as H.
      cbv zeta in H. destruct H as [-> | (old & Hold & Hnot & ->)];
        [exact Hk |].
      destruct (decide (category_id = k)) as [-> | Hne].
      * rewrite Hk in Hold. injection Hold as <-. contradiction.
      * rewrite lookup_delete_ne by exact Hne. exact Hk.
  - intros row Hrow Hprot. split.
    + eapply update_category_declines_protected; eassumption.
    + eapply delete_category_declines_protected; eassumption.
  - apply update_category_declines_rename.
Qed.

(** The protected row of the sample store: both functions decline on it,
    and a rename of another row to ' UNCATEGORIZED ' is declined. *)
Lemma uncategorized_is_protected_witness :
  categories sample_db !! 1 = Some (mkCategory "Uncategorized" "expense") ∧
  is_uncategorized (mkCategory "Uncategorized" "expense") ∧
  update_category Healthy 1 "Misc" "income" sample_db = (false, sample_db) ∧
  delete_category Healthy 1 sample_db = (false, sample_db) ∧
  update_category Healthy 2 " UNCATEGORIZED " "expense" sample_db
  = (false, sample_db).
Proof.
  assert (Hrow : categories sample_db !! 1
                 = Some (mkCategory "Uncategorized" "expense"))
    by (vm_compute; reflexivity).
  assert (Hprot : is_uncategorized (mkCategory "Uncategorized" "expense"))
    by reflexivity.
  split; [exact Hrow |]. split; [exact Hprot |].
  pose proof (uncategorized_is_protected Healthy sample_db 1 "Misc" "income")
    as (_ & Hdecl & _).
  destruct (Hdecl _ Hrow Hprot) as [Hupd Hdel].
  split; [exact Hupd |]. split; [exact Hdel |].
  pose proof (uncategorized_is_protected Healthy sample_db 2
                " UNCATEGORIZED " "expense") as (_ & _ & Hname).
  apply Hname. reflexivity.
Defined.

(** ** Row ids *)

Lemma foldr_max_ge {A} (l : list (Z * A)) (k : Z) (v : A) :
  (k, v) ∈ l → k <= foldr (λ kv acc, Z.max kv.1 acc) 0 l.
Proof.
  induction l as [| [k' v'] l IH]; intros Hin.
  - inversion Hin.
  - apply elem_of_cons in Hin as [[= <- <-] | Hin]; simpl.
    + lia.
    + specialize (IH Hin). lia.
Qed.

Lemma max_rowid_ge {A} (t : gmap Z A) (k : Z) (v : A) :
  t !! k = Some v → k <= max_rowid t.
Proof.
  intros Hk. unfold max_rowid. apply foldr_max_ge with v.
  apply elem_of_map_to_list. exact Hk.
Qed.

(** The id given to an inserted row is not the id of a row of the table. *)
Lemma next_rowid_fresh {A} (t : gmap Z A) (seq : Z) :
  t !! next_rowid t seq = None.
Proof.
  destruct (t !! next_rowid t seq) as [v |] eqn:E; [| reflexivity].
  apply max_rowid_ge in E. unfold next_rowid in E. lia.
Qed.

(** ** Blocks that bind integers and quantize amounts *)

Lemma try_except_sqlite3_faulty {A} (body : block A) (failed : A) (d : db) :
  try_except_sqlite3 Faulty body failed d = (Returned failed, d).
Proof. reflexivity. Qed.

Lemma execute_bound {A} (ints : list Z) (statement : cursor A) (d : db) :
  Forall int64 ints →
  execute ints statement d =
  match statement d with
  | inl e => inl (sqlite3_error e)
  | inr r => inr r
  end.
Proof. intros H. unfold execute. rewrite decide_True by exact H. reflexivity. Qed.

Lemma execute_overflow {A} (ints : list Z) (statement : cursor A) (d : db) :
  ¬ Forall int64 ints → execute ints statement d = inl OverflowError.
Proof. intros H. unfold execute. rewrite decide_False by exact H. reflexivity. Qed.

Lemma Forall_int64_1 (n : Z) : Forall int64 [n] ↔ int64 n.
Proof. rewrite Forall_singleton. reflexivity. Qed.

(** ** Transactions: deleting an absent id *)

Lemma delete_transaction_healthy (d : db) (id : Z) :
  delete_transaction Healthy id d =
  if decide (int64 id)
  then (Returned (bool_decide (is_Some (transactions d !! id))),
        with_transactions (delete id (transactions d)) (transactions_seq d) d)
  else (Raised OverflowError, d).
Proof.
  unfold delete_transaction, try_except_sqlite3, mbind, block_bind.
  destruct (decide (int64 id)) as [Hid | Hid].
  - rewrite execute_bound by (apply Forall_int64_1, Hid).
    unfold sql_delete_transaction.
    destruct (decide (is_Some (transactions d !! id))) as [H | H].
    + rewrite (bool_decide_eq_true_2 _ H). reflexivity.
    + rewrite (bool_decide_eq_false_2 _ H). reflexivity.
  - rewrite execute_overflow by (rewrite Forall_int64_1; exact Hid).
    reflexivity.
Qed.

(** C9.  Deleting a transaction id that is not in the table leaves the
    store as it was: the transactions table has the same rows, and so the
    same number of rows, before and after.  For an id that fits the engine's
    64-bit INTEGER the call returns False, the "not found" answer, whether or
    not the storage engine faults.  For an id beyond that range the driver
    raises [OverflowError] when the statement binds it, and the exception
    leaves the function. *)
Theorem delete_transaction_not_found :
  ∀ (st : storage) (d : db) (transaction_id : Z),
    transactions d !! transaction_id = None →
    let r := delete_transaction st transaction_id d in
    (int64 transaction_id → r.1 = Returned false) ∧
    (¬ int64 transaction_id →
     r.1 = match st with
           | Healthy => Raised OverflowError
           | Faulty => Returned false
           end) ∧
    r.2 = d ∧
    transactions r.2 = transactions d ∧
    size (transactions r.2) = size (transactions d).
Proof.
  intros st d transaction_id Habsent r.
  assert (Hd : r.2 = d).
  { subst r. destruct st; [| reflexivity].
    rewrite delete_transaction_healthy. case_decide; [| reflexivity].
    cbn [snd]. rewrite delete_id by exact Habsent.
    unfold with_transactions. apply db_eta. }
  split; [| split; [| rewrite Hd; repeat split; reflexivity]].
  - intros Hid. subst r. destruct st; [| reflexivity].
    rewrite delete_transaction_healthy, decide_True by exact Hid.
    cbn [fst]. rewrite bool_decide_eq_false_2; [reflexivity |].
    rewrite Habsent. intros [? ?]. discriminate.
  - intros Hid. subst r. destruct st; [| reflexivity].
    rewrite delete_transaction_healthy, decide_False by exact Hid.
    reflexivity.
Qed.

(** Transaction 7 is not in the sample store. *)
Lemma delete_transaction_not_found_witness :
  transactions sample_db !! 7 = None ∧
  (delete_transaction Healthy 7 sample_db).1 = Returned false ∧
  (delete_transaction Healthy 7 sample_db).2 = sample_db.
Proof.
  assert (H : transactions sample_db !! 7 = None) by (vm_compute; reflexivity).
  assert (H7 : int64 7) by (unfold int64; lia).
  split; [exact H |].
  destruct (delete_transaction_not_found Healthy sample_db 7 H)
    as (Hret & _ & Hd & _).
  split; [exact (Hret H7) | exact Hd].
Defined.

(** C9, as the specification words it, fails: for the absent id 2^63 the
    call does not return the "not found" answer, it raises. *)
Lemma delete_transaction_raises :
  transactions sample_db !! (2 ^ 63) = None ∧
  delete_transaction Healthy (2 ^ 63) sample_db
  = (Raised OverflowError, sample_db).
Proof. split; vm_compute; reflexivity. Qed.

(** ** Budgets *)

Lemma month_shape_ok_spec (m : string) : month_shape_ok m = true ↔ month_shape m.
Proof.
  unfold month_shape_ok, month_shape, PyStr.len, PyStr.index.
  rewrite andb_true_iff, !bool_decide_eq_true.
  split; intros [H1 H2]; (split; [lia | exact H2]).
Qed.

(** The amount [set_budget] stores. *)
Lemma budget_amount_value (a : Decimal) :
  exp (to_cents (py_max Decimal_0_00 a)) = -2 ∧
  (value (to_cents (py_max Decimal_0_00 a)) ==
   round_to_cents (Qmax 0 (value a)))%Q.
Proof.
  split; [apply exp_quantize |].
  rewrite value_quantize, value_py_max_0. reflexivity.
Qed.

Section upsert.

Variables (c : Z) (m : string) (amt : Decimal) (d : db).
Hypothesis category_exists : is_Some (categories d !! c).

Let conflict : Prop := map_Exists (λ _ r, budget_key_is c m r) (budgets d).
Let rewritten : gmap Z budget_row :=
(λ r, if decide (budget_key_is c m r) then mkBudget c m amt else r)
  <$> budgets d.
Let inserted : gmap Z budget_row :=
<[next_rowid (budgets d) (budgets_seq d) := mkBudget c m amt]> (budgets d).

Lemma sql_upsert_budget_runs :
sql_upsert_budget c m amt d =
inr (tt, with_budgets (if decide conflict then rewritten else inserted)
                      (next_rowid (budgets d) (budgets_seq d)) d).
Proof.
unfold sql_upsert_budget. rewrite decide_True by exact category_exists.
subst conflict. cbv zeta. case_decide; reflexivity.
Qed.

Lemma rewritten_lookup k r :
rewritten !! k = Some r →
∃ r0, budgets d !! k = Some r0 ∧
      ((budget_key_is c m r0 ∧ r = mkBudget c m amt) ∨
       (¬ budget_key_is c m r0 ∧ r = r0)).
Proof.
subst rewritten. rewrite lookup_fmap.
destruct (budgets d !! k) as [r0 |]; [| discriminate].
simpl. intros [= <-]. exists r0. split; [reflexivity |].
case_decide; [left | right]; split; done.
Qed.

Lemma inserted_lookup k r :
inserted !! k = Some r →
(k = next_rowid (budgets d) (budgets_seq d) ∧ r = mkBudget c m amt) ∨
(k ≠ next_rowid (budgets d) (budgets_seq d) ∧ budgets d !! k = Some r).
Proof.
subst inserted. rewrite lookup_insert. case_decide.
- intros [= <-]. left. done.
- intros H'. right. done.
Qed.

(** A row with the key of the call is in the table afterwards, and every
  row with that key carries the amount of the call. *)
Lemma upsert_stores :
let t' := if decide conflict then rewritten else inserted in
(∃ k, t' !! k = Some (mkBudget c m amt)) ∧
(∀ k r, t' !! k = Some r → budget_key_is c m r → r = mkBudget c m amt).
Proof.
cbv zeta. case_decide as Hc.
- split.
  + apply map_Exists_lookup in Hc as (k & r0 & Hk & Hkey).
    exists k. subst rewritten. rewrite lookup_fmap, Hk. simpl.
    rewrite decide_True by exact Hkey. reflexivity.
  + intros k r Hk Hkey.
    apply rewritten_lookup in Hk as (r0 & _ & [[_ ->] | [Hn ->]]);
      [reflexivity | contradiction].
- split.
  + eexists. subst inserted. apply lookup_insert_eq.
  + intros k r Hk Hkey.
    apply inserted_lookup in Hk as [[_ ->] | [_ Hk]]; [reflexivity |].
    exfalso. apply Hc. apply map_Exists_lookup. eauto.
Qed.

(** The upsert keeps the [UNIQUE (category_id, month)] constraint. *)
Lemma upsert_keeps_unique :
budgets_unique (budgets d) →
budgets_unique (if decide conflict then rewritten else inserted).
Proof.
intros Huniq. case_decide as Hc; intros k1 k2 r1 r2 H1 H2 Hcat Hmon.
- apply rewritten_lookup in H1 as (o1 & Ho1 & C1).
  apply rewritten_lookup in H2 as (o2 & Ho2 & C2).
  apply (Huniq k1 k2 o1 o2 Ho1 Ho2);
    destruct C1 as [[[E1 E1'] ->] | [N1 ->]];
    destruct C2 as [[[E2 E2'] ->] | [N2 ->]]; simpl in *;
    try congruence;
    exfalso; (apply N1 || apply N2); split; congruence.
- apply inserted_lookup in H1 as [[-> ->] | [Hk1 H1]];
    apply inserted_lookup in H2 as [[-> ->] | [Hk2 H2]]; simpl in *.
  + reflexivity.
  + exfalso. apply Hc. apply map_Exists_lookup.
    exists k2, r2. split; [exact H2 |]. split; congruence.
  + exfalso. apply Hc. apply map_Exists_lookup.
    exists k1, r1. split; [exact H1 |]. split; congruence.
  + eapply Huniq; eassumption.
Qed.

End upsert.

(** What [set_budget] does on a storage engine that serves it. *)
Lemma set_budget_healthy (d : db) (c : Z) (m : string) (a : Decimal) :
  set_budget Healthy c m a d =
  if decide (quantizable (py_max Decimal_0_00 a)) then
    if decide (int64 c) then
      if decide (budget_rejected d c m) then (Returned false, d)
      else
        match sql_upsert_budget c m (to_cents (py_max Decimal_0_00 a)) d with
        | inr (_, d') => (Returned true, d')
        | inl _ => (Returned false, d)
        end
    else (Raised OverflowError, d)
  else (Raised decimal_InvalidOperation, d).
Proof.
  unfold set_budget.
  destruct (decide (quantizable (py_max Decimal_0_00 a))) as [Hq | Hq];
    [rewrite (quantize_quantizable _ Hq)
    | rewrite (quantize_not_quantizable _ Hq); reflexivity].
  unfold try_except_sqlite3, mbind, block_bind.
  destruct (decide (int64 c)) as [Hc | Hc];
    [| rewrite execute_overflow by (rewrite Forall_int64_1; exact Hc);
       reflexivity].
  rewrite execute_bound by (apply Forall_int64_1, Hc). unfold query at 1.
  destruct (decide (budget_rejected d c m)) as [Hrej | Hrej];
    unfold budget_rejected in Hrej;
    destruct (categories d !! c) as [row |]; try reflexivity.
  - case_decide as Hty; [reflexivity |].
    destruct Hrej as [Hrej | Hrej]; [contradiction |].
    rewrite <- month_shape_ok_spec in Hrej.
    destruct (month_shape_ok m); [contradiction | reflexivity].
  - rewrite decide_False by (intros ?; apply Hrej; left; assumption).
    assert (Hm : month_shape_ok m = true).
    { destruct (month_shape_ok m) eqn:Hm; [reflexivity |].
      exfalso. apply Hrej. right. rewrite <- month_shape_ok_spec. congruence. }
    rewrite Hm. cbn [negb].
    rewrite execute_bound by (apply Forall_int64_1, Hc).
    destruct (sql_upsert_budget _ _ _ _) as [e | [[] d']]; reflexivity.
  - exfalso. apply Hrej. exact I.
Qed.

Lemma set_budget_faulty (d : db) (c : Z) (m : string) (a : Decimal) :
  set_budget Faulty c m a d =
  if decide (quantizable (py_max Decimal_0_00 a)) then (Returned false, d)
  else (Raised decimal_InvalidOperation, d).
Proof.
  unfold set_budget. case_decide as Hq.
  - rewrite (quantize_quantizable _ Hq). reflexivity.
  - rewrite (quantize_not_quantizable _ Hq). reflexivity.
Qed.

(** A call that passes the three checks writes the budget. *)
Lemma set_budget_accepts (d : db) (c : Z) (m : string) (a : Decimal) :
  quantizable (py_max Decimal_0_00 a) →
  int64 c →
  ¬ budget_rejected d c m →
  let new := mkBudget c m (to_cents (py_max Decimal_0_00 a)) in
  ∃ t' s',
    set_budget Healthy c m a d = (Returned true, with_budgets t' s' d) ∧
    (∃ k, t' !! k = Some new) ∧
    (∀ k r, t' !! k = Some r → budget_key_is c m r → r = new) ∧
    (budgets_unique (budgets d) → budgets_unique t') ∧
    (map_Exists (λ _ r, budget_key_is c m r) (budgets d) →
     size t' = size (budgets d)).
Proof.
  intros Hq Hc Hok new. rewrite set_budget_healthy.
  rewrite decide_True by exact Hq. rewrite decide_True by exact Hc.
  rewrite decide_False by exact Hok.
  assert (Hcat : is_Some (categories d !! c)).
  { unfold budget_rejected in Hok.
    destruct (categories d !! c); [eauto | exfalso; apply Hok; exact I]. }
  rewrite sql_upsert_budget_runs by exact Hcat.
  eexists _, _. split; [reflexivity |].
  destruct (upsert_stores c m (to_cents (py_max Decimal_0_00 a)) d)
    as [Hex Hall].
  split; [exact Hex |]. split; [exact Hall |].
  split; [apply upsert_keeps_unique |].
  intros Hx. rewrite decide_True by exact Hx. apply map_size_fmap.
Qed.

(** The converse: a call that returned True passed the checks. *)
Lemma set_budget_returned_true (d d' : db) (c : Z) (m : string) (a : Decimal) :
  set_budget Healthy c m a d = (Returned true, d') →
  quantizable (py_max Decimal_0_00 a) ∧ int64 c ∧ ¬ budget_rejected d c m.
Proof.
  rewrite set_budget_healthy. intros H.
  case_decide as Hq; [| discriminate]. case_decide as Hc; [| discriminate].
  case_decide as Hr; [discriminate |]. auto.
Qed.




(** C4.  In a store that meets the [UNIQUE (category_id, month)] constraint,
    a call of [set_budget] for an expense category and a well-shaped month,
    with an amount it can quantize, succeeds.  A second call for the same
    pair whose amount can be quantized succeeds as well; afterwards exactly
    one row carries that pair, its amount is the one of the second call
    (raised to zero and rounded to cents), the second call added no row, and
    the constraint still holds.  A second call whose amount cannot be
    quantized raises [InvalidOperation] and the row keeps the amount of the
    first. *)
Theorem set_budget_upserts :
  ∀ (d : db) (c : Z) (m : string) (a1 a2 : Decimal) (row : category_row),
    budgets_unique (budgets d) →
    categories d !! c = Some row →
    cat_type row = "expense" →
    month_shape m →
    int64 c →
    quantizable (py_max Decimal_0_00 a1) →
    let r1 := set_budget Healthy c m a1 d in
    let r2 := set_budget Healthy c m a2 r1.2 in
    let first := mkBudget c m (to_cents (py_max Decimal_0_00 a1)) in
    let latest := mkBudget c m (to_cents (py_max Decimal_0_00 a2)) in
    r1.1 = Returned true ∧
    (quantizable (py_max Decimal_0_00 a2) →
     r2.1 = Returned true ∧
     (∃ k, budgets r2.2 !! k = Some latest ∧
           ∀ k' row', budgets r2.2 !! k' = Some row' →
                      budget_key_is c m row' → k' = k) ∧
     exp (bud_amount latest) = -2 ∧
     (value (bud_amount latest) == round_to_cents (Qmax 0 (value a2)))%Q ∧
     size (budgets r2.2) = size (budgets r1.2) ∧
     budgets_unique (budgets r2.2)) ∧
    (¬ quantizable (py_max Decimal_0_00 a2) →
     r2 = (Raised decimal_InvalidOperation, r1.2) ∧
     ∃ k, budgets r2.2 !! k = Some first ∧
          ∀ k' row', budgets r2.2 !! k' = Some row' →
                     budget_key_is c m row' → k' = k).
Proof.
  intros d c m a1 a2 row Huniq Hrow Hty Hm Hc Hq1 r1 r2 first latest.
  assert (Hok : ¬ budget_rejected d c m).
  { unfold budget_rejected. rewrite Hrow. intros [? | ?]; contradiction. }
  destruct (set_budget_accepts d c m a1 Hq1 Hc Hok)
    as (t1 & s1 & E1 & [k1 Hk1] & _ & Hu1 & _).
  subst r2. subst r1. rewrite E1. cbn [fst snd].
  assert (Hok1 : ¬ budget_rejected (with_budgets t1 s1 d) c m) by exact Hok.
  specialize (Hu1 Huniq).
  split; [reflexivity |]. split.
  - intros Hq2.
    destruct (set_budget_accepts (with_budgets t1 s1 d) c m a2 Hq2 Hc Hok1)
      as (t2 & s2 & E2 & [k2 Hk2] & Hall2 & Hu2 & Hsize).
    rewrite E2. cbn [fst snd].
    specialize (Hu2 Hu1).
    split; [reflexivity |].
    split.
    { exists k2. split; [exact Hk2 |].
      intros k' row' Hk' [Hc' Hm'].
      apply (Hu2 k' k2 row' _ Hk' Hk2); simpl; assumption. }
    split; [apply exp_quantize |].
    split; [apply budget_amount_value |].
    split; [| exact Hu2].
    apply Hsize. apply map_Exists_lookup.
    exists k1, (mkBudget c m (to_cents (py_max Decimal_0_00 a1))).
    split; [exact Hk1 | split; reflexivity].
  - intros Hq2. rewrite set_budget_healthy.
    rewrite decide_False by exact Hq2.
    split; [reflexivity |]. cbn [snd budgets with_budgets].
    exists k1. split; [exact Hk1 |].
    intros k' row' Hk' [Hc' Hm'].
    apply (Hu1 k' k1 row' _ Hk' Hk1); simpl; assumption.
Qed.

Lemma sample_budgets_unique : budgets_unique (budgets sample_db).
Proof.
  intros k1 k2 r1 r2 H1 H2 _ _. simpl in H1, H2.
  apply lookup_singleton_Some in H1 as [<- _].
  apply lookup_singleton_Some in H2 as [<- _]. reflexivity.
Qed.

(** Two calls for Groceries and 2024-01 on the sample store; the second
    amount, -7, is stored as 0.00. *)
Lemma set_budget_upserts_witness :
  budgets_unique (budgets sample_db) ∧
  ∃ k,
    budgets (set_budget Healthy 2 "2024-01" (mkDecimal (-7) 0)
               (set_budget Healthy 2 "2024-01" (mkDecimal 12345 (-3))
                           sample_db).2).2 !! k
    = Some (mkBudget 2 "2024-01" Decimal_0_00).
Proof.
  split; [exact sample_budgets_unique |].
  assert (Hrow : categories sample_db !! 2 = Some (mkCategory "Groceries" "expense"))
    by (vm_compute; reflexivity).
  assert (Hshape : month_shape "2024-01") by (split; reflexivity).
  assert (Hc : int64 2) by (unfold int64; lia).
  assert (Hq1 : quantizable (py_max Decimal_0_00 (mkDecimal 12345 (-3))))
    by (vm_compute; reflexivity).
  assert (Hq2 : quantizable (py_max Decimal_0_00 (mkDecimal (-7) 0)))
    by (vm_compute; reflexivity).
  destruct (set_budget_upserts sample_db 2 "2024-01" (mkDecimal 12345 (-3))
              (mkDecimal (-7) 0) _ sample_budgets_unique Hrow eq_refl Hshape
              Hc Hq1)
    as (_ & Hsecond & _).
  destruct (Hsecond Hq2) as (_ & (k & Hk & _) & _).
  exists k. exact Hk.
Defined.

(** C4, as the specification words it, fails: after 12.345 the amount
    1E+26 makes the second call raise, and the one row of the pair keeps
    12.35, the amount of the first call. *)
Lemma set_budget_second_call_raises :
  (set_budget Healthy 2 "2024-01" (mkDecimal 12345 (-3)) sample_db).1
  = Returned true ∧
  (set_budget Healthy 2 "2024-01" (mkDecimal 1 26)
     (set_budget Healthy 2 "2024-01" (mkDecimal 12345 (-3)) sample_db).2).1
  = Raised decimal_InvalidOperation ∧
  budgets (set_budget Healthy 2 "2024-01" (mkDecimal 1 26)
             (set_budget Healthy 2 "2024-01" (mkDecimal 12345 (-3))
                         sample_db).2).2 !! 1
  = Some (mkBudget 2 "2024-01" (mkDecimal 1235 (-2))) ∧
  mkDecimal 1235 (-2) ≠ to_cents (py_max Decimal_0_00 (mkDecimal 1 26)).
Proof.
  split; [vm_compute; reflexivity |]. split; [vm_compute; reflexivity |].
  split; [vm_compute; reflexivity |]. vm_compute. discriminate.
Qed.

(** ** What the transaction and account writers do *)

Lemma checked_category_runs (d : db) (cat : option Z) :
  Forall int64 (option_list cat) →
  checked_category cat d = inr (stored_category d cat, d).
Proof.
  unfold checked_category, stored_category, mbind, block_bind.
  destruct cat as [c |]; [| reflexivity].
  intros Hc. rewrite execute_bound by exact Hc. unfold query.
  destruct (categories d !! c) eqn:E.
  - rewrite decide_True by eauto. reflexivity.
  - rewrite decide_False by (intros [? ?]; discriminate). reflexivity.
Qed.

Lemma checked_category_overflow (d : db) (c : Z) :
  ¬ int64 c → checked_category (Some c) d = inl OverflowError.
Proof.
  intros Hc. unfold checked_category, mbind, block_bind.
  rewrite execute_overflow by (rewrite Forall_int64_1; exact Hc). reflexivity.
Qed.

Lemma stored_category_ok (d : db) (cat : option Z) :
  match stored_category d cat with
  | Some c => is_Some (categories d !! c)
  | None => True
  end.
Proof.
  unfold stored_category. destruct cat as [c |]; [| exact I].
  case_decide; [assumption | exact I].
Qed.

Lemma stored_category_int64 (d : db) (cat : option Z) :
  Forall int64 (option_list cat) →
  Forall int64 (option_list (stored_category d cat)).
Proof.
  unfold stored_category. destruct cat as [c |]; [| intros _; constructor].
  case_decide; [tauto | intros _; constructor].
Qed.

Lemma stored_category_stale (d : db) (c : Z) :
  categories d !! c = None → stored_category d (Some c) = None.
Proof.
  intros H. unfold stored_category.
  rewrite decide_False; [reflexivity |]. rewrite H. intros [? ?]. discriminate.
Qed.

Lemma add_transaction_healthy (d : db) acc date desc a cat :
  add_transaction Healthy acc date desc a cat d =
  if decide (quantizable a) then
    if decide (Forall int64 (acc :: option_list cat)) then
      if decide (is_Some (accounts d !! acc) ∧
                 int64 (next_rowid (transactions d) (transactions_seq d)))
      then
        (Returned (Some (next_rowid (transactions d) (transactions_seq d))),
         with_transactions
           (<[next_rowid (transactions d) (transactions_seq d) :=
                mkTransaction acc date (PyStr.strip desc) (to_cents a)
                              (stored_category d cat)]> (transactions d))
           (next_rowid (transactions d) (transactions_seq d)) d)
      else (Returned None, d)
    else (Raised OverflowError, d)
  else (Raised decimal_InvalidOperation, d).
Proof.
  unfold add_transaction, try_except_sqlite3.
  unfold mbind at 1, block_bind at 1. unfold py.
  destruct (decide (quantizable a)) as [Hq | Hq];
    [rewrite (quantize_quantizable _ Hq)
    | rewrite (quantize_not_quantizable _ Hq); reflexivity].
  unfold mbind at 1, block_bind at 1.
  destruct (decide (Forall int64 (acc :: option_list cat))) as [Hb | Hb].
  - apply Forall_cons in Hb as [Hacc Hcat].
    rewrite checked_category_runs by exact Hcat.
    unfold mbind, block_bind.
    rewrite execute_bound
      by (apply Forall_cons; split;
          [exact Hacc | apply stored_category_int64, Hcat]).
    unfold sql_insert_transaction.
    pose proof (stored_category_ok d cat) as Hc.
    destruct (decide (is_Some (accounts d !! acc))) as [Ha | Ha].
    + rewrite (decide_True (P := transaction_fk_ok _ _))
        by (split; [exact Ha |]; cbn [tx_category_id];
            destruct (stored_category d cat); exact Hc).
      destruct (decide (int64 (next_rowid (transactions d)
                                          (transactions_seq d)))) as [Hi | Hi].
      * rewrite decide_True by (split; assumption). reflexivity.
      * rewrite decide_False by (intros [_ ?]; contradiction). reflexivity.
    + rewrite (decide_False (P := transaction_fk_ok _ _))
        by (intros [? _]; contradiction).
      rewrite decide_False by (intros [? _]; contradiction). reflexivity.
  - destruct (decide (Forall int64 (option_list cat))) as [Hcat | Hcat].
    + rewrite checked_category_runs by exact Hcat.
      unfold mbind, block_bind.
      rewrite execute_overflow; [reflexivity |].
      intros [Hacc _]%Forall_cons. apply Hb, Forall_cons. split; assumption.
    + destruct cat as [c |]; [| exfalso; apply Hcat; constructor].
      rewrite checked_category_overflow; [reflexivity |].
      intros Hc. apply Hcat, Forall_int64_1, Hc.
Qed.

Lemma update_transaction_healthy (d : db) id acc date desc a cat :
  update_transaction Healthy id acc date desc a cat d =
  if decide (quantizable a) then
    if decide (Forall int64 (id :: acc :: option_list cat)) then
      if decide (is_Some (transactions d !! id) ∧
                 is_Some (accounts d !! acc))
      then
        (Returned true,
         with_transactions
           (<[id := mkTransaction acc date (PyStr.strip desc) (to_cents a)
                                  (stored_category d cat)]> (transactions d))
           (transactions_seq d) d)
      else (Returned false, d)
    else (Raised OverflowError, d)
  else (Raised decimal_InvalidOperation, d).
Proof.
  unfold update_transaction, try_except_sqlite3.
  unfold mbind at 1, block_bind at 1. unfold py.
  destruct (decide (quantizable a)) as [Hq | Hq];
    [rewrite (quantize_quantizable _ Hq)
    | rewrite (quantize_not_quantizable _ Hq); reflexivity].
  unfold mbind at 1, block_bind at 1.
  destruct (decide (Forall int64 (id :: acc :: option_list cat))) as [Hb | Hb].
  - apply Forall_cons in Hb as [Hid Hb].
    apply Forall_cons in Hb as [Hacc Hcat].
    rewrite checked_category_runs by exact Hcat.
    unfold mbind, block_bind.
    rewrite execute_bound
      by (apply Forall_cons; split; [exact Hacc |];
          apply Forall_app; split;
          [apply stored_category_int64, Hcat | apply Forall_int64_1, Hid]).
    unfold sql_update_transaction.
    pose proof (stored_category_ok d cat) as Hc.
    destruct (transactions d !! id) as [old |] eqn:Hold.
    + destruct (decide (is_Some (accounts d !! acc))) as [Ha | Ha].
      * rewrite (decide_True (P := transaction_fk_ok _ _))
          by (split; [exact Ha |]; cbn [tx_category_id];
              destruct (stored_category d cat); exact Hc).
        rewrite decide_True by (split; [eauto | exact Ha]). reflexivity.
      * rewrite (decide_False (P := transaction_fk_ok _ _))
          by (intros [? _]; contradiction).
        rewrite decide_False by (intros [_ ?]; contradiction). reflexivity.
    + rewrite decide_False by (intros [[? ?] _]; discriminate). reflexivity.
  - destruct (decide (Forall int64 (option_list cat))) as [Hcat | Hcat].
    + rewrite checked_category_runs by exact Hcat.
      unfold mbind, block_bind.
      rewrite execute_overflow; [reflexivity |].
      intros [Hacc [_ Hid%Forall_int64_1]%Forall_app]%Forall_cons.
      apply Hb. repeat (apply Forall_cons; split; try assumption).
    + destruct cat as [c |]; [| exfalso; apply Hcat; constructor].
      rewrite checked_category_overflow; [reflexivity |].
      intros Hc. apply Hcat, Forall_int64_1, Hc.
Qed.

Lemma add_account_healthy (d : db) (name : string) (balance : Decimal) :
  add_account Healthy name balance d =
  if decide (quantizable balance) then
    if decide (¬ account_name_taken (accounts d) (PyStr.strip name) ∧
               int64 (next_rowid (accounts d) (accounts_seq d)))
    then
      (Returned (Some (next_rowid (accounts d) (accounts_seq d))),
       with_accounts
         (<[next_rowid (accounts d) (accounts_seq d) :=
              mkAccount (PyStr.strip name) (to_cents balance)]> (accounts d))
         (next_rowid (accounts d) (accounts_seq d)) d)
    else (Returned None, d)
  else (Raised decimal_InvalidOperation, d).
Proof.
  unfold add_account, try_except_sqlite3, mbind, block_bind, py.
  destruct (decide (quantizable balance)) as [Hq | Hq];
    [rewrite (quantize_quantizable _ Hq)
    | rewrite (quantize_not_quantizable _ Hq); reflexivity].
  rewrite execute_bound by constructor. unfold sql_insert_account.
  destruct (decide (account_name_taken (accounts d) (PyStr.strip name)))
    as [Ht | Ht].
  - rewrite decide_False by tauto. reflexivity.
  - destruct (decide (int64 (next_rowid (accounts d) (accounts_seq d))))
      as [Hi | Hi].
    + rewrite decide_True by tauto. reflexivity.
    + rewrite decide_False by tauto. reflexivity.
Qed.

Lemma update_account_healthy d id name b :
  update_account Healthy id name b d =
  if decide (quantizable b) then
    if decide (int64 id) then
      match accounts d !! id with
      | None => (Returned false, d)
      | Some _ =>
          if decide (account_name_taken_by_other (accounts d) id
                                                 (PyStr.strip name))
          then (Returned false, d)
          else (Returned true,
                with_accounts
                  (<[id := mkAccount (PyStr.strip name) (to_cents b)]>
                     (accounts d))
                  (accounts_seq d) d)
      end
    else (Raised OverflowError, d)
  else (Raised decimal_InvalidOperation, d).
Proof.
  unfold update_account, try_except_sqlite3, mbind, block_bind, py.
  destruct (decide (quantizable b)) as [Hq | Hq];
    [rewrite (quantize_quantizable _ Hq)
    | rewrite (quantize_not_quantizable _ Hq); reflexivity].
  destruct (decide (int64 id)) as [Hid | Hid];
    [| rewrite execute_overflow by (rewrite Forall_int64_1; exact Hid);
       reflexivity].
  rewrite execute_bound by (apply Forall_int64_1, Hid).
  unfold sql_update_account.
  destruct (accounts d !! id); [case_decide |]; reflexivity.
Qed.

Lemma delete_account_healthy d id :
  delete_account Healthy id d =
  if decide (int64 id) then
    match accounts d !! id with
    | None => (Returned false, d)
    | Some _ =>
        (Returned true,
         mkDb (delete id (accounts d)) (accounts_seq d)
              (categories d) (categories_seq d)
              (filter (λ kv, tx_account_id kv.2 ≠ id) (transactions d))
              (transactions_seq d) (budgets d) (budgets_seq d))
    end
  else (Raised OverflowError, d).
Proof.
  unfold delete_account, try_except_sqlite3, mbind, block_bind.
  destruct (decide (int64 id)) as [Hid | Hid];
    [| rewrite execute_overflow by (rewrite Forall_int64_1; exact Hid);
       reflexivity].
  rewrite execute_bound by (apply Forall_int64_1, Hid).
  unfold sql_delete_account.
  destruct (accounts d !! id); reflexivity.
Qed.

(** ** Transactions: a stale category id *)

Section stale_category.

Variables (d : db) (c : Z).
Hypothesis stale : categories d !! c = None.
Hypothesis bound : int64 c.

Lemma checked_category_stale :
checked_category (Some c) d = checked_category None d.
Proof.
rewrite !checked_category_runs
  by (try apply Forall_int64_1; first [exact bound | constructor]).
rewrite (stored_category_stale d c stale). reflexivity.
Qed.



End stale_category.




(** ** Accounts and the outcome a caller sees *)

Lemma add_account_faulty (d : db) (name : string) (balance : Decimal) :
  add_account Faulty name balance d = (Returned None, d).
Proof. reflexivity. Qed.





(** ** The current balance *)

Lemma selected_empty (P : transaction_row → Prop) `{∀ t, Decision (P t)}
    (d : db) :
  (∀ k t, transactions d !! k = Some t → ¬ P t) → selected P d = ∅.
Proof.
  intros Hnone. unfold selected. apply map_eq. intros k.
  rewrite lookup_fmap, lookup_empty.
  destruct (filter _ (transactions d) !! k) as [t |] eqn:E; [| reflexivity].
  apply map_lookup_filter_Some in E as [Hk HP]. cbn [snd] in HP.
  exfalso. exact (Hnone k t Hk HP).
Qed.

(** Two stores that select the same rows with the same dates and amounts
    give the aggregate the same input. *)
Lemma selected_ext (P : transaction_row → Prop) `{∀ t, Decision (P t)}
    (d d' : db) :
  (∀ k, (λ t, (tx_date t, tx_amount t))
        <$> (filter (λ kv, P kv.2) (transactions d') !! k)
      = (λ t, (tx_date t, tx_amount t))
        <$> (filter (λ kv, P kv.2) (transactions d) !! k)) →
  selected P d' = selected P d.
Proof.
  intros Hk. unfold selected. apply map_eq. intros k.
  rewrite !lookup_fmap. apply Hk.
Qed.

Section balance.

Context {engine : Engine}.

Lemma get_account_current_balance_faulty (d : db) (account_id : Z) :
  get_account_current_balance Faulty account_id d = Returned Decimal_0_00.
Proof. reflexivity. Qed.

Lemma get_account_current_balance_healthy (d : db) (account_id : Z) :
  get_account_current_balance Healthy account_id d =
  if decide (int64 account_id) then
    match accounts d !! account_id with
    | None => Returned Decimal_0_00
    | Some row =>
        match quantize match sum_of_account account_id d with
                       | Some s => Decimal_add (acc_initial_balance row) s
                       | None => acc_initial_balance row
                       end with
        | inl _ => Raised decimal_InvalidOperation
        | inr q => Returned q
        end
    end
  else Raised OverflowError.
Proof.
  unfold get_account_current_balance, try_except_sqlite3.
  unfold mbind at 1, block_bind at 1.
  destruct (decide (int64 account_id)) as [Hid | Hid];
    [| rewrite execute_overflow by (rewrite Forall_int64_1; exact Hid);
       reflexivity].
  rewrite execute_bound by (apply Forall_int64_1, Hid). unfold query at 1.
  destruct (accounts d !! account_id) as [row |]; [| reflexivity].
  unfold mbind, block_bind.
  rewrite execute_bound by (apply Forall_int64_1, Hid). unfold query, py.
  destruct (quantize _) as [e | q] eqn:E; [| reflexivity].
  apply quantize_raises in E as [-> _]. reflexivity.
Qed.

Lemma get_account_current_balance_missing st (d : db) (account_id : Z) :
  int64 account_id →
  accounts d !! account_id = None →
  get_account_current_balance st account_id d = Returned Decimal_0_00.
Proof.
  intros Hid Hrow. destruct st; [| reflexivity].
  rewrite get_account_current_balance_healthy.
  rewrite decide_True by exact Hid. rewrite Hrow. reflexivity.
Qed.

Lemma get_account_current_balance_overflow (d : db) (account_id : Z) :
  ¬ int64 account_id →
  get_account_current_balance Healthy account_id d = Raised OverflowError.
Proof.
  intros Hid. rewrite get_account_current_balance_healthy.
  rewrite decide_False by exact Hid. reflexivity.
Qed.


Lemma balance_fits st (d : db) (account_id : Z) (b : Decimal) :
  get_account_current_balance st account_id d = Returned b →
  Z.abs (coeff b) < 10 ^ prec.
Proof.
  destruct st; [| intros [= <-]; vm_compute; reflexivity].
  rewrite get_account_current_balance_healthy.
  case_decide; [| discriminate].
  destruct (accounts d !! account_id) as [row |];
    [| intros [= <-]; vm_compute; reflexivity].
  destruct (quantize _) as [e | q] eqn:E; [discriminate |].
  intros [= <-]. apply quantize_returns in E as [-> Hf]. exact Hf.
Qed.

(** The balance is a function of the account row and of the rows the
    aggregate receives. *)
Lemma balance_same_rows (d d' : db) (a : Z) :
  accounts d' !! a = accounts d !! a →
  selected (λ t, tx_account_id t = a) d' =
  selected (λ t, tx_account_id t = a) d →
  get_account_current_balance Healthy a d' =
  get_account_current_balance Healthy a d.
Proof.
  intros Hacc Hsel. rewrite !get_account_current_balance_healthy.
  unfold sum_of_account. rewrite Hacc, Hsel. reflexivity.
Qed.

(** An account without transactions: the sum is NULL and the balance is the
    initial balance, quantized. *)
Lemma balance_without_transactions (d : db) (a : Z) (row : account_row) :
  int64 a →
  accounts d !! a = Some row →
  (∀ k t, transactions d !! k = Some t → tx_account_id t ≠ a) →
  get_account_current_balance Healthy a d =
  match quantize (acc_initial_balance row) with
  | inl _ => Raised decimal_InvalidOperation
  | inr q => Returned q
  end.
Proof.
  intros Ha Hrow Hnone. rewrite get_account_current_balance_healthy.
  rewrite decide_True by exact Ha. rewrite Hrow.
  unfold sum_of_account.
  rewrite (selected_empty (λ t, tx_account_id t = a) d Hnone), SUM_no_row.
  reflexivity.
Qed.

Lemma to_cents_zero (x : Decimal) : coeff x = 0 → to_cents x = Decimal_0_00.
Proof.
  intros H. apply value_cents_inj; [apply exp_quantize | reflexivity |].
  rewrite value_quantize. unfold value at 1. rewrite H.
  rewrite Qmult_0_l. reflexivity.
Qed.

Lemma quantize_zero (x : Decimal) : coeff x = 0 → quantize x = inr Decimal_0_00.
Proof.
  intros H. apply quantize_returns. rewrite (to_cents_zero x H).
  split; [reflexivity | vm_compute; reflexivity].
Qed.

Lemma exact_add_zero (a b : Decimal) :
  coeff a = 0 → coeff b = 0 → coeff (exact_add a b) = 0.
Proof.
  intros Ha Hb. unfold exact_add, rescale. cbn [coeff]. rewrite Ha, Hb. lia.
Qed.

Lemma Decimal_add_zero (a b : Decimal) :
  coeff a = 0 → coeff b = 0 → coeff (Decimal_add a b) = 0.
Proof.
  intros Ha Hb. unfold Decimal_add.
  rewrite context_round_fits; [apply exact_add_zero; assumption |].
  rewrite exact_add_zero by assumption. vm_compute. reflexivity.
Qed.

End balance.

(** C10.  For an account id that is not in the accounts table and fits the
    engine's 64-bit INTEGER the balance is exactly [Decimal('0.00')], with
    or without a storage fault.  That is also the balance of an account
    whose initial balance is 0.00 and which has no transaction, or whose
    transactions the engine totals to zero, so the two cannot be told apart.
    For an id beyond the 64-bit range the call raises [OverflowError] once
    the connection is open. *)
Theorem missing_account_reads_as_zero :
  ∀ {engine : Engine} (st : storage) (d : db) (account_id : Z),
    accounts d !! account_id = None →
    (int64 account_id →
     get_account_current_balance st account_id d = Returned Decimal_0_00) ∧
    (¬ int64 account_id →
     get_account_current_balance Healthy account_id d = Raised OverflowError) ∧
    ∀ (d' : db) (account_id' : Z) (row : account_row),
      int64 account_id' →
      accounts d' !! account_id' = Some row →
      acc_initial_balance row = Decimal_0_00 →
      ((∀ k t, transactions d' !! k = Some t →
               tx_account_id t ≠ account_id') →
       get_account_current_balance Healthy account_id' d'
       = Returned Decimal_0_00) ∧
      (∀ s, sum_of_account account_id' d' = Some s → coeff s = 0 →
            get_account_current_balance Healthy account_id' d'
            = Returned Decimal_0_00).
Proof.
  intros E st d account_id Hmissing.
  split; [| split].
  - intros Hid. apply get_account_current_balance_missing; assumption.
  - apply get_account_current_balance_overflow.
  - intros d' a row Ha Hrow Hzero.
    assert (Hinit : coeff (acc_initial_balance row) = 0)
      by (rewrite Hzero; reflexivity).
    clear Hzero. split.
    + intros Hnone.
      rewrite (balance_without_transactions d' a row Ha Hrow Hnone).
      rewrite (quantize_zero _ Hinit). reflexivity.
    + intros s Hs Hzero. rewrite get_account_current_balance_healthy.
      rewrite decide_True by exact Ha. rewrite Hrow, Hs.
      rewrite quantize_zero by (apply Decimal_add_zero; assumption).
      reflexivity.
Qed.

(** Account 9 is not in the sample store. *)
Lemma missing_account_reads_as_zero_witness :
  accounts sample_db !! 9 = None ∧
  get_account_current_balance (engine := decimal_engine) Healthy 9 sample_db
  = Returned Decimal_0_00.
Proof.
  assert (H : accounts sample_db !! 9 = None) by (vm_compute; reflexivity).
  assert (H9 : int64 9) by (unfold int64; lia).
  split; [exact H |].
  exact (proj1 (missing_account_reads_as_zero (engine := decimal_engine)
                  Healthy sample_db 9 H) H9).
Defined.

(** C10, as the specification words it, fails: the account id 2^63 is not
    in the table and the call does not return 0.00, it raises. *)
Lemma missing_account_raises :
  accounts sample_db !! (2 ^ 63) = None ∧
  get_account_current_balance (engine := decimal_engine) Healthy (2 ^ 63)
                              sample_db
  = Raised OverflowError.
Proof. split; vm_compute; reflexivity. Qed.

(** The scenario of the specification, on the engine that adds exactly:
    100.00 - 25.50 + 1000.00. *)
Example checking_balance :
  get_account_current_balance (engine := decimal_engine) Healthy 1 sample_db
  = Returned (mkDecimal 107450 (-2)).
Proof. vm_compute. reflexivity. Qed.

(** ** Monetary text: parse with default *)

Section strip_facts.

Variables old new : ascii.
Hypothesis old_not_space : PyStr.isspace old = false.
Hypothesis new_not_space : PyStr.isspace new = false.

Lemma isspace_replaced (a : ascii) :
PyStr.isspace (if decide (a = old) then new else a) = PyStr.isspace a.
Proof. case_decide; [subst a; congruence | reflexivity]. Qed.

Lemma lstrip_replace (s : string) :
PyStr.lstrip (PyStr.replace old new s) = PyStr.replace old new (PyStr.lstrip s).
Proof.
induction s as [| a s IH]; [reflexivity |].
cbn [PyStr.replace PyStr.lstrip]. rewrite isspace_replaced.
destruct (PyStr.isspace a); [exact IH | reflexivity].
Qed.

Lemma rstrip_replace (s : string) :
PyStr.rstrip (PyStr.replace old new s) = PyStr.replace old new (PyStr.rstrip s).
Proof.
induction s as [| a s IH]; [reflexivity |].
cbn [PyStr.replace PyStr.rstrip]. rewrite IH, isspace_replaced.
destruct (PyStr.rstrip s); cbn [PyStr.replace];
  [destruct (PyStr.isspace a) |]; reflexivity.
Qed.

Lemma strip_replace (s : string) :
PyStr.strip (PyStr.replace old new s) = PyStr.replace old new (PyStr.strip s).
Proof. unfold PyStr.strip. rewrite lstrip_replace. apply rstrip_replace. Qed.

Lemma replace_replace (s : string) :
old ≠ new →
PyStr.replace old new (PyStr.replace old new s) = PyStr.replace old new s.
Proof.
intros Hne. induction s as [| a s IH]; [reflexivity |].
cbn [PyStr.replace]. rewrite IH. f_equal.
destruct (decide (a = old)) as [-> | Ha].
- rewrite decide_False by congruence. reflexivity.
- rewrite decide_False by exact Ha. reflexivity.
Qed.

End strip_facts.

Lemma rstrip_rstrip (s : string) :
  PyStr.rstrip (PyStr.rstrip s) = PyStr.rstrip s.
Proof.
  induction s as [| a s IH]; [reflexivity |].
  cbn [PyStr.rstrip].
  destruct (PyStr.rstrip s) as [| b r] eqn:E.
  - destruct (PyStr.isspace a) eqn:Ha; [reflexivity |].
    cbn [PyStr.rstrip]. rewrite Ha. reflexivity.
  - change (PyStr.rstrip (String a (String b r))) with
      (match PyStr.rstrip (String b r) with
       | EmptyString =>
           if PyStr.isspace a then EmptyString else String a EmptyString
       | r0 => String a r0
       end).
    rewrite IH. reflexivity.
Qed.

(** A text with no space in front keeps none when its end is trimmed. *)
Lemma lstrip_rstrip_lstrip (s : string) :
  PyStr.lstrip (PyStr.rstrip (PyStr.lstrip s)) = PyStr.rstrip (PyStr.lstrip s).
Proof.
  induction s as [| a s IH]; [reflexivity |].
  cbn [PyStr.lstrip]. destruct (PyStr.isspace a) eqn:Ha; [exact IH |].
  cbn [PyStr.rstrip].
  destruct (PyStr.rstrip s); rewrite ?Ha; cbn [PyStr.lstrip]; rewrite Ha;
    reflexivity.
Qed.

Lemma strip_strip (s : string) : PyStr.strip (PyStr.strip s) = PyStr.strip s.
Proof.
  unfold PyStr.strip. rewrite lstrip_rstrip_lstrip. apply rstrip_rstrip.
Qed.

Section parse_facts.

Context {PyDecimal : Type}.
Variable Decimal_of_str : string → InvalidOperation + PyDecimal.
Variable default : PyDecimal.

Abbreviation parse := (_parse_decimal_from_str Decimal_of_str).

Lemma parse_returns (value_str : option string) :
∃ v, parse value_str default = inr v.
Proof.
unfold _parse_decimal_from_str. destruct value_str as [s |]; [| eauto].
case_decide; [eauto |].
destruct (Decimal_of_str _) as [[] | v]; eauto.
Qed.

Lemma parse_cleaned (s : string) :
parse (Some s) default =
if decide (PyStr.strip s = "") then inr default
else
  match Decimal_of_str (PyStr.replace "," "." (PyStr.strip s)) with
  | inr v => inr v
  | inl _ => inr default
  end.
Proof.
unfold _parse_decimal_from_str. case_decide; [reflexivity |].
destruct (Decimal_of_str _) as [[] | v]; reflexivity.
Qed.

Lemma parse_trims (s : string) :
parse (Some (PyStr.strip s)) default = parse (Some s) default.
Proof. rewrite !parse_cleaned, strip_strip. reflexivity. Qed.

Lemma replace_empty (s : string) :
PyStr.replace "," "." s = "" ↔ s = "".
Proof. destruct s; split; intros H; try reflexivity; discriminate. Qed.

Lemma parse_comma (s : string) :
parse (Some (PyStr.replace "," "." s)) default = parse (Some s) default.
Proof.
rewrite !parse_cleaned.
rewrite strip_replace by reflexivity.
rewrite replace_replace by discriminate.
destruct (decide (PyStr.strip s = "")) as [E | E].
- rewrite decide_True by (apply replace_empty; exact E). reflexivity.
- rewrite decide_False by (rewrite replace_empty; exact E). reflexivity.
Qed.

End parse_facts.

(** C6.  Whatever the constructor of the Decimal library does on a text
    (return a value or raise InvalidOperation), [_parse_decimal_from_str]
    returns a value and raises nothing, for an absent argument and for every
    text.  It returns the default for an absent argument, for a text that is
    empty once trimmed, and for a text the constructor rejects; otherwise it
    returns what the constructor reads in the trimmed text with each ','
    written '.'.  So surrounding whitespace does not matter, and a ',' reads
    as a '.'. *)
Theorem parse_with_default_never_raises :
  ∀ (PyDecimal : Type) (Decimal_of_str : string → InvalidOperation + PyDecimal)
    (value_str : option string) (default : PyDecimal),
    let parse := _parse_decimal_from_str Decimal_of_str in
    (∃ v, parse value_str default = inr v) ∧
    parse None default = inr default ∧
    (∀ s, PyStr.strip s = "" → parse (Some s) default = inr default) ∧
    (∀ s e, Decimal_of_str (PyStr.replace "," "." (PyStr.strip s)) = inl e →
            parse (Some s) default = inr default) ∧
    (∀ s v, PyStr.strip s ≠ "" →
            Decimal_of_str (PyStr.replace "," "." (PyStr.strip s)) = inr v →
            parse (Some s) default = inr v) ∧
    (∀ s, parse (Some (PyStr.strip s)) default = parse (Some s) default) ∧
    (∀ s, parse (Some (PyStr.replace "," "." s)) default =
          parse (Some s) default).
Proof.
  intros PyDecimal Decimal_of_str value_str default parse. subst parse.
  split; [apply parse_returns |].
  split; [reflexivity |].
  split; [intros s Hs; rewrite parse_cleaned, decide_True by exact Hs;
          reflexivity |].
  split; [intros s e He; rewrite parse_cleaned, He; case_decide; reflexivity |].
  split; [intros s v Hs Hv;
          rewrite parse_cleaned, Hv, decide_False by exact Hs; reflexivity |].
  split; [apply parse_trims | apply parse_comma].
Qed.

(** A text with a decimal comma and a text that is not a number, read with
    the constructor of plain numerals. *)
Lemma parse_with_default_never_raises_witness :
  PyStr.strip " 1,50 " ≠ "" ∧
  plain_numeral (PyStr.replace "," "." (PyStr.strip " 1,50 "))
  = inr (mkDecimal 150 (-2)) ∧
  _parse_decimal_from_str plain_numeral (Some " 1,50 ") Decimal_0_00
  = inr (mkDecimal 150 (-2)) ∧
  plain_numeral (PyStr.replace "," "." (PyStr.strip "12 apples"))
  = inl ConversionSyntax ∧
  _parse_decimal_from_str plain_numeral (Some "12 apples") Decimal_0_00
  = inr Decimal_0_00.
Proof.
  assert (H1 : PyStr.strip " 1,50 " ≠ "") by (vm_compute; discriminate).
  assert (H2 : plain_numeral (PyStr.replace "," "." (PyStr.strip " 1,50 "))
               = inr (mkDecimal 150 (-2))) by (vm_compute; reflexivity).
  assert (H3 : plain_numeral (PyStr.replace "," "." (PyStr.strip "12 apples"))
               = inl ConversionSyntax) by (vm_compute; reflexivity).
  pose proof (parse_with_default_never_raises Decimal plain_numeral None
                Decimal_0_00) as (_ & _ & _ & Hbad & Hgood & _).
  split; [exact H1 |]. split; [exact H2 |].
  split; [exact (Hgood _ _ H1 H2) |].
  split; [exact H3 |]. exact (Hbad _ _ H3).
Defined.

(** ** What each writing function leaves in the store *)

Lemma try_except_faulty_snd {A} (body : cursor A) (failed : A) (d : db) :
  (try_except Faulty body failed d).2 = d.
Proof. reflexivity. Qed.


Lemma add_account_effect st name b d :
  (add_account st name b d).2 = d ∨
  (¬ account_name_taken (accounts d) (PyStr.strip name) ∧
   (add_account st name b d).2 =
   with_accounts
     (<[next_rowid (accounts d) (accounts_seq d) :=
          mkAccount (PyStr.strip name) (to_cents b)]> (accounts d))
     (next_rowid (accounts d) (accounts_seq d)) d).
Proof.
  destruct st; [| left; reflexivity].
  rewrite add_account_healthy.
  destruct (decide (quantizable b)); [| left; reflexivity].
  destruct (decide (_ ∧ _)) as [[Hfree _] | _]; [right | left; reflexivity].
  split; [exact Hfree | reflexivity].
Qed.

Lemma update_account_effect st id name b d :
  (update_account st id name b d).2 = d ∨
  (is_Some (accounts d !! id) ∧
   ¬ account_name_taken_by_other (accounts d) id (PyStr.strip name) ∧
   (update_account st id name b d).2 =
   with_accounts
     (<[id := mkAccount (PyStr.strip name) (to_cents b)]> (accounts d))
     (accounts_seq d) d).
Proof.
  destruct st; [| left; reflexivity].
  rewrite update_account_healthy.
  destruct (decide (quantizable b)); [| left; reflexivity].
  destruct (decide (int64 id)); [| left; reflexivity].
  destruct (accounts d !! id) eqn:E; [| left; reflexivity].
  destruct (decide (account_name_taken_by_other _ _ _));
    [left; reflexivity | right].
  split; [eauto |]. split; [assumption | reflexivity].
Qed.

Lemma delete_account_effect st id d :
  (delete_account st id d).2 = d ∨
  (delete_account st id d).2 =
  mkDb (delete id (accounts d)) (accounts_seq d)
       (categories d) (categories_seq d)
       (filter (λ kv, tx_account_id kv.2 ≠ id) (transactions d))
       (transactions_seq d) (budgets d) (budgets_seq d).
Proof.
  destruct st; [| left; reflexivity].
  rewrite delete_account_healthy.
  destruct (decide (int64 id)); [| left; reflexivity].
  destruct (accounts d !! id); [right | left]; reflexivity.
Qed.

Lemma add_category_healthy d name ty :
  add_category Healthy name ty d =
  if decide (category_type_ok ty ∧
             ¬ category_name_in_use (categories d) (PyStr.strip name))
  then
    (Some (next_rowid (categories d) (categories_seq d)),
     with_categories_seq
       (<[next_rowid (categories d) (categories_seq d) :=
            mkCategory (PyStr.strip name) ty]> (categories d))
       (next_rowid (categories d) (categories_seq d)) d)
  else (None, d).
Proof.
  unfold add_category. rewrite try_except_healthy.
  unfold mbind, cursor_bind, sql_insert_category.
  case_decide; reflexivity.
Qed.

Lemma update_category_effect st id name ty d :
  (update_category st id name ty d).2 = d ∨
  ∃ old,
    categories d !! id = Some old ∧ ¬ is_uncategorized old ∧
    PyStr.lower (PyStr.strip name) ≠ "uncategorized" ∧
    category_type_ok (PyStr.lower (PyStr.strip ty)) ∧
    ¬ category_name_taken (categories d) id (PyStr.strip name) ∧
    (update_category st id name ty d).2 =
    with_categories
      (<[id := mkCategory (PyStr.strip name) (PyStr.lower (PyStr.strip ty))]>
         (categories d)) d.
Proof.
  unfold update_category.
  case_decide as Hempty; [left; reflexivity |].
  case_decide as Hname; [left; reflexivity |].
  case_decide as Hty; [left; reflexivity |].
  destruct st; [| left; reflexivity].
  rewrite try_except_healthy. unfold mbind, cursor_bind, query.
  destruct (categories d !! id) as [old |] eqn:Hold; [| left; reflexivity].
  case_decide as Hprot; [left; reflexivity |].
  unfold sql_update_category. rewrite Hold.
  case_decide as Hok; [| left; reflexivity].
  right. exists old. destruct Hok as [Hok1 Hok2]. repeat split; done.
Qed.

Lemma delete_category_effect st id d :
  (delete_category st id d).2 = d ∨
  ∃ old,
    categories d !! id = Some old ∧ ¬ is_uncategorized old ∧
    (delete_category st id d).2 =
    mkDb (accounts d) (accounts_seq d)
         (delete id (categories d)) (categories_seq d)
         (clear_category id <$> transactions d) (transactions_seq d)
         (filter (λ kv, bud_category_id kv.2 ≠ id) (budgets d))
         (budgets_seq d).
Proof.
  unfold delete_category.
  destruct st; [| left; reflexivity].
  rewrite try_except_healthy. unfold mbind, cursor_bind, query.
  destruct (categories d !! id) as [old |] eqn:Hold; [| left; reflexivity].
  case_decide as Hprot; [left; reflexivity |].
  unfold sql_delete_category. rewrite Hold.
  right. exists old. repeat split; done.
Qed.

Lemma set_budget_effect st c m a d :
  (set_budget st c m a d).2 = d ∨
  (is_Some (categories d !! c) ∧
   ∃ t' s',
     (set_budget st c m a d).2 = with_budgets t' s' d ∧
     (budgets_unique (budgets d) → budgets_unique t') ∧
     ∀ k r, t' !! k = Some r →
            r = mkBudget c m (to_cents (py_max Decimal_0_00 a)) ∨
            budgets d !! k = Some r).
Proof.
  destruct st;
    [| left; rewrite set_budget_faulty; case_decide; reflexivity].
  rewrite set_budget_healthy.
  destruct (decide (quantizable _)); [| left; reflexivity].
  destruct (decide (int64 c)); [| left; reflexivity].
  destruct (decide (budget_rejected d c m)) as [Hrej | Hrej];
    [left; reflexivity |].
  assert (Hcat : is_Some (categories d !! c)).
  { unfold budget_rejected in Hrej.
    destruct (categories d !! c); [eauto | exfalso; apply Hrej; exact I]. }
  rewrite sql_upsert_budget_runs by exact Hcat.
  right. split; [exact Hcat |]. eexists _, _. split; [reflexivity |].
  split; [apply upsert_keeps_unique |].
  intros k r. case_decide.
  - intros (r0 & Hr0 & [[_ ->] | [_ ->]])%rewritten_lookup; [left | right]; done.
  - intros [[_ ->] | [_ Hk]]%inserted_lookup; [left | right]; done.
Qed.

Lemma stored_category_cases (d : db) (cat : option Z) :
  stored_category d cat = None ∨
  (stored_category d cat = cat ∧
   ∃ c, cat = Some c ∧ is_Some (categories d !! c)).
Proof.
  unfold stored_category. destruct cat as [c |]; [| left; reflexivity].
  case_decide; [right | left; reflexivity]. split; [reflexivity | eauto].
Qed.

Lemma add_transaction_effect st acc date desc a cat d :
  (add_transaction st acc date desc a cat d).2 = d ∨
  ∃ cat',
    (cat' = None ∨ (cat' = cat ∧ ∃ c, cat = Some c ∧ is_Some (categories d !! c))) ∧
    is_Some (accounts d !! acc) ∧
    (add_transaction st acc date desc a cat d).2 =
    with_transactions
      (<[next_rowid (transactions d) (transactions_seq d) :=
           mkTransaction acc date (PyStr.strip desc) (to_cents a) cat']>
         (transactions d))
      (next_rowid (transactions d) (transactions_seq d)) d.
Proof.
  destruct st; [| left; reflexivity].
  rewrite add_transaction_healthy.
  destruct (decide (quantizable a)); [| left; reflexivity].
  destruct (decide (Forall int64 _)); [| left; reflexivity].
  destruct (decide (_ ∧ _)) as [[Hacc _] | _]; [| left; reflexivity].
  right. exists (stored_category d cat).
  split; [apply stored_category_cases |].
  split; [exact Hacc | reflexivity].
Qed.

Lemma update_transaction_effect st id acc date desc a cat d :
  (update_transaction st id acc date desc a cat d).2 = d ∨
  ∃ cat',
    (cat' = None ∨ (cat' = cat ∧ ∃ c, cat = Some c ∧ is_Some (categories d !! c))) ∧
    is_Some (accounts d !! acc) ∧
    is_Some (transactions d !! id) ∧
    (update_transaction st id acc date desc a cat d).2 =
    with_transactions
      (<[id := mkTransaction acc date (PyStr.strip desc) (to_cents a) cat']>
         (transactions d))
      (transactions_seq d) d.
Proof.
  destruct st; [| left; reflexivity].
  rewrite update_transaction_healthy.
  destruct (decide (quantizable a)); [| left; reflexivity].
  destruct (decide (Forall int64 _)); [| left; reflexivity].
  destruct (decide (_ ∧ _)) as [[Htx Hacc] | _]; [| left; reflexivity].
  right. exists (stored_category d cat).
  split; [apply stored_category_cases |].
  split; [exact Hacc |]. split; [exact Htx | reflexivity].
Qed.

Lemma delete_transaction_effect st id d :
  (delete_transaction st id d).2 = d ∨
  (delete_transaction st id d).2 =
  with_transactions (delete id (transactions d)) (transactions_seq d) d.
Proof.
  destruct st; [| left; reflexivity].
  rewrite delete_transaction_healthy.
  destruct (decide (int64 id)); [right | left]; reflexivity.
Qed.

(** ** The foreign keys hold after every call *)

Lemma is_Some_insert {A} (t : gmap Z A) (k id : Z) (r : A) :
  is_Some (t !! k) → is_Some (<[id := r]> t !! k).
Proof. intros H. rewrite lookup_insert. case_decide; eauto. Qed.

Lemma is_Some_delete_ne {A} (t : gmap Z A) (k id : Z) :
  k ≠ id → is_Some (t !! k) → is_Some (delete id t !! k).
Proof. intros Hne H. rewrite lookup_delete_ne by congruence. exact H. Qed.

(** A step that keeps a property, or leaves the store as it was. *)
Lemma run_all_keeps (P : db → Prop) :
  (∀ st c d, P d → P (run st c d)) →
  ∀ cs d, P d → P (run_all cs d).
Proof.
  intros Hstep cs. unfold run_all.
  induction cs as [| [st c] cs IH]; intros d Hd; [exact Hd |].
  simpl. apply IH, Hstep, Hd.
Qed.

Lemma fk_ok_mono (d d' : db) (t : transaction_row) :
  (∀ k, is_Some (accounts d !! k) → is_Some (accounts d' !! k)) →
  (∀ k, is_Some (categories d !! k) → is_Some (categories d' !! k)) →
  transaction_fk_ok d t → transaction_fk_ok d' t.
Proof.
  intros Ha Hc [H1 H2]. split; [apply Ha, H1 |].
  destruct (tx_category_id t); [apply Hc, H2 | exact I].
Qed.

Lemma references_kept_by_run st c d :
  references_hold d → references_hold (run st c d).
Proof.
  intros [Htx Hbud]. destruct c; simpl.
  - (* add_account *)
    destruct (add_account_effect st name initial_balance d) as [-> | [_ ->]];
      [split; assumption |].
    split; [| exact Hbud]. intros k t Hk.
    apply (fk_ok_mono d); [| auto | apply (Htx k t Hk)].
    intros k'. apply is_Some_insert.
  - (* update_account *)
    destruct (update_account_effect st account_id new_name
                new_initial_balance d) as [-> | (_ & _ & ->)];
      [split; assumption |].
    split; [| exact Hbud]. intros k t Hk.
    apply (fk_ok_mono d); [| auto | apply (Htx k t Hk)].
    intros k'. apply is_Some_insert.
  - (* delete_account *)
    destruct (delete_account_effect st account_id d) as [-> | ->];
      [split; assumption |].
    split; [| exact Hbud]. intros k t Hk. simpl in Hk.
    apply map_lookup_filter_Some in Hk as [Hk Hne]. simpl in Hne.
    destruct (Htx k t Hk) as [Ha Hc]. split; [| exact Hc].
    apply is_Some_delete_ne; assumption.
  - (* add_category *)
    destruct st; [| split; assumption].
    rewrite add_category_healthy. case_decide; [| split; assumption].
    split.
    + intros k t Hk. apply (fk_ok_mono d); [auto | | apply (Htx k t Hk)].
      intros k'. apply is_Some_insert.
    + intros k b Hk. apply is_Some_insert, (Hbud k b Hk).
  - (* update_category *)
    destruct (update_category_effect st category_id new_name new_type d)
      as [-> | (old & _ & _ & _ & _ & _ & ->)]; [split; assumption |].
    split.
    + intros k t Hk. apply (fk_ok_mono d); [auto | | apply (Htx k t Hk)].
      intros k'. apply is_Some_insert.
    + intros k b Hk. apply is_Some_insert, (Hbud k b Hk).
  - (* delete_category *)
    destruct (delete_category_effect st category_id d)
      as [-> | (old & _ & _ & ->)]; [split; assumption |].
    split.
    + intros k t' Hk. simpl in Hk. rewrite lookup_fmap in Hk.
      destruct (transactions d !! k) as [t |] eqn:Ht; [| discriminate].
      simpl in Hk. injection Hk as <-.
      destruct (Htx k t Ht) as [Ha Hc]. unfold clear_category.
      case_decide as Hcat; (split; [exact Ha |]); simpl; [exact I |].
      destruct (tx_category_id t) as [c |]; [| exact I].
      apply is_Some_delete_ne; [congruence | exact Hc].
    + intros k b Hk. simpl in Hk.
      apply map_lookup_filter_Some in Hk as [Hk Hne].
      simpl in Hne. apply is_Some_delete_ne; [exact Hne | apply (Hbud k b Hk)].
  - (* set_budget *)
    destruct (set_budget_effect st category_id month_str amount d)
      as [-> | (Hcat & t' & s' & -> & _ & Hrows)]; [split; assumption |].
    split; [exact Htx |]. intros k b Hk.
    destruct (Hrows k b Hk) as [-> | Hold]; [exact Hcat | apply (Hbud k b Hold)].
  - (* add_transaction *)
    destruct (add_transaction_effect st account_id date_str description amount
                category_id d)
      as [-> | (cat' & Hcat' & Hacc & ->)]; [split; assumption |].
    split; [| exact Hbud]. intros k t Hk. simpl in Hk.
    rewrite lookup_insert in Hk. case_decide; [| apply (Htx k t Hk)].
    injection Hk as <-. split; [exact Hacc |]. simpl.
    destruct Hcat' as [-> | [-> (c0 & -> & Hin)]]; [exact I | exact Hin].
  - (* update_transaction *)
    destruct (update_transaction_effect st transaction_id account_id date_str
                description amount category_id d)
      as [-> | (cat' & Hcat' & Hacc & _ & ->)]; [split; assumption |].
    split; [| exact Hbud]. intros k t Hk. simpl in Hk.
    rewrite lookup_insert in Hk. case_decide; [| apply (Htx k t Hk)].
    injection Hk as <-. split; [exact Hacc |]. simpl.
    destruct Hcat' as [-> | [-> (c0 & -> & Hin)]]; [exact I | exact Hin].
  - (* delete_transaction *)
    destruct (delete_transaction_effect st transaction_id d) as [-> | ->];
      [split; assumption |].
    split; [| exact Hbud]. intros k t Hk. apply (Htx k t). simpl in Hk.
    apply lookup_delete_Some in Hk as [_ Hk]. exact Hk.
Qed.

(** ** The uniqueness constraints hold after every call *)

Lemma nocase_eq_sym (a b : string) : nocase_eq a b → nocase_eq b a.
Proof. unfold nocase_eq. congruence. Qed.

Section unique_names.

Context {A : Type} (name_of : A → string) (t : gmap Z A).
Hypothesis unique : names_unique name_of t.

(** Writing a row whose name no other row holds keeps the names unique. *)
Lemma names_unique_insert (id : Z) (new : A) :
  (∀ k r, t !! k = Some r → k ≠ id → ¬ nocase_eq (name_of r) (name_of new)) →
  names_unique name_of (<[id := new]> t).
Proof.
  intros Hfree k1 k2 r1 r2 H1 H2 Heq.
  rewrite lookup_insert in H1. rewrite lookup_insert in H2.
  destruct (decide (id = k1)) as [E1 | N1];
    destruct (decide (id = k2)) as [E2 | N2].
  - congruence.
  - injection H1 as <-. exfalso.
    apply (Hfree k2 r2 H2); [congruence | apply nocase_eq_sym, Heq].
  - injection H2 as <-. exfalso.
    apply (Hfree k1 r1 H1); [congruence | exact Heq].
  - apply (unique k1 k2 r1 r2 H1 H2 Heq).
Qed.

Lemma names_unique_delete (id : Z) : names_unique name_of (delete id t).
Proof.
  intros k1 k2 r1 r2 [_ H1]%lookup_delete_Some [_ H2]%lookup_delete_Some.
  apply (unique k1 k2 r1 r2 H1 H2).
Qed.

End unique_names.

Lemma budgets_unique_filter (P : Z * budget_row → Prop)
    `{∀ x, Decision (P x)} (t : gmap Z budget_row) :
  budgets_unique t → budgets_unique (filter P t).
Proof.
  intros Hu k1 k2 r1 r2 [H1 _]%map_lookup_filter_Some
         [H2 _]%map_lookup_filter_Some.
  apply (Hu k1 k2 r1 r2 H1 H2).
Qed.

Lemma constraints_kept_by_run st c d :
  constraints_hold d → constraints_hold (run st c d).
Proof.
  intros (Hacc & Hcat & Hbud & Hty). destruct c; simpl.
  - (* add_account *)
    destruct (add_account_effect st name initial_balance d)
      as [-> | [Hfree ->]]; [repeat split; assumption |].
    split; [| repeat split; assumption]. simpl.
    apply names_unique_insert; [exact Hacc |].
    intros k r Hk _ Heq. apply Hfree. apply map_Exists_lookup. eauto.
  - (* update_account *)
    destruct (update_account_effect st account_id new_name
                new_initial_balance d) as [-> | (_ & Hfree & ->)];
      [repeat split; assumption |].
    split; [| repeat split; assumption]. simpl.
    apply names_unique_insert; [exact Hacc |].
    intros k r Hk Hne Heq. apply Hfree. apply map_Exists_lookup. eauto.
  - (* delete_account *)
    destruct (delete_account_effect st account_id d) as [-> | ->];
      [repeat split; assumption |].
    split; [| repeat split; assumption]. simpl.
    apply names_unique_delete, Hacc.
  - (* add_category *)
    destruct st; [| repeat split; assumption].
    rewrite add_category_healthy.
    case_decide as Hok; [| repeat split; assumption].
    destruct Hok as [Hok Hfree].
    split; [exact Hacc |]. split; [| split; [exact Hbud |]]; simpl.
    + apply names_unique_insert; [exact Hcat |].
      intros k r Hk _ Heq. apply Hfree. apply map_Exists_lookup. eauto.
    + intros k c Hk. rewrite lookup_insert in Hk.
      case_decide; [injection Hk as <-; exact Hok | apply (Hty k c Hk)].
  - (* update_category *)
    destruct (update_category_effect st category_id new_name new_type d)
      as [-> | (old & _ & _ & _ & Hok & Hfree & ->)];
      [repeat split; assumption |].
    split; [exact Hacc |]. split; [| split; [exact Hbud |]]; simpl.
    + apply names_unique_insert; [exact Hcat |].
      intros k r Hk Hne Heq. apply Hfree. apply map_Exists_lookup. eauto.
    + intros k c Hk. rewrite lookup_insert in Hk.
      case_decide; [injection Hk as <-; exact Hok | apply (Hty k c Hk)].
  - (* delete_category *)
    destruct (delete_category_effect st category_id d)
      as [-> | (old & _ & _ & ->)]; [repeat split; assumption |].
    split; [exact Hacc |]. split; [| split]; simpl.
    + apply names_unique_delete, Hcat.
    + apply budgets_unique_filter, Hbud.
    + intros k c [_ Hk]%lookup_delete_Some. apply (Hty k c Hk).
  - (* set_budget *)
    destruct (set_budget_effect st category_id month_str amount d)
      as [-> | (_ & t' & s' & -> & Hu & _)]; [repeat split; assumption |].
    split; [exact Hacc |]. split; [exact Hcat |]. split; [| exact Hty].
    apply Hu, Hbud.
  - (* add_transaction *)
    destruct (add_transaction_effect st account_id date_str description amount
                category_id d) as [-> | (cat' & _ & _ & ->)];
      repeat split; assumption.
  - (* update_transaction *)
    destruct (update_transaction_effect st transaction_id account_id date_str
                description amount category_id d)
      as [-> | (cat' & _ & _ & _ & ->)];
      repeat split; assumption.
  - (* delete_transaction *)
    destruct (delete_transaction_effect st transaction_id d) as [-> | ->];
      repeat split; assumption.
Qed.

(** ** Every stored amount keeps two places *)

Lemma amounts_kept_by_run st c d :
  amounts_in_cents d → amounts_in_cents (run st c d).
Proof.
  intros (Hacc & Htx & Hbud). destruct c; simpl.
  - destruct (add_account_effect st name initial_balance d)
      as [-> | [_ ->]]; [repeat split; assumption |].
    split; [| split; assumption]. simpl. intros k acc Hk.
    rewrite lookup_insert in Hk.
    case_decide; [injection Hk as <-; apply exp_quantize | apply (Hacc k acc Hk)].
  - destruct (update_account_effect st account_id new_name
                new_initial_balance d) as [-> | (_ & _ & ->)];
      [repeat split; assumption |].
    split; [| split; assumption]. simpl. intros k acc Hk.
    rewrite lookup_insert in Hk.
    case_decide; [injection Hk as <-; apply exp_quantize | apply (Hacc k acc Hk)].
  - destruct (delete_account_effect st account_id d) as [-> | ->];
      [repeat split; assumption |].
    split; [| split; [| exact Hbud]]; simpl.
    + intros k acc [_ Hk]%lookup_delete_Some. apply (Hacc k acc Hk).
    + intros k t [Hk _]%map_lookup_filter_Some. apply (Htx k t Hk).
  - destruct st; [| repeat split; assumption].
    rewrite add_category_healthy. case_decide; repeat split; assumption.
  - destruct (update_category_effect st category_id new_name new_type d)
      as [-> | (old & _ & _ & _ & _ & _ & ->)]; repeat split; assumption.
  - destruct (delete_category_effect st category_id d)
      as [-> | (old & _ & _ & ->)]; [repeat split; assumption |].
    split; [exact Hacc |]. split; simpl.
    + intros k t' Hk. rewrite lookup_fmap in Hk.
      destruct (transactions d !! k) as [t |] eqn:Ht; [| discriminate].
      injection Hk as <-. unfold clear_category.
      case_decide; simpl; apply (Htx k t Ht).
    + intros k b [Hk _]%map_lookup_filter_Some. apply (Hbud k b Hk).
  - destruct (set_budget_effect st category_id month_str amount d)
      as [-> | (_ & t' & s' & -> & _ & Hrows)]; [repeat split; assumption |].
    split; [exact Hacc |]. split; [exact Htx |]. simpl. intros k b Hk.
    destruct (Hrows k b Hk) as [-> | Hold];
      [apply exp_quantize | apply (Hbud k b Hold)].
  - destruct (add_transaction_effect st account_id date_str description amount
                category_id d) as [-> | (cat' & _ & _ & ->)];
      [repeat split; assumption |].
    split; [exact Hacc |]. split; [| exact Hbud]. simpl. intros k t Hk.
    rewrite lookup_insert in Hk.
    case_decide; [injection Hk as <-; apply exp_quantize | apply (Htx k t Hk)].
  - destruct (update_transaction_effect st transaction_id account_id date_str
                description amount category_id d)
      as [-> | (cat' & _ & _ & _ & ->)]; [repeat split; assumption |].
    split; [exact Hacc |]. split; [| exact Hbud]. simpl. intros k t Hk.
    rewrite lookup_insert in Hk.
    case_decide; [injection Hk as <-; apply exp_quantize | apply (Htx k t Hk)].
  - destruct (delete_transaction_effect st transaction_id d) as [-> | ->];
      [repeat split; assumption |].
    split; [exact Hacc |]. split; [| exact Hbud]. simpl. intros k t Hk.
    apply (Htx k t). apply lookup_delete_Some in Hk as [_ Hk]. exact Hk.
Qed.

(** ** The protected category stays in the store *)

Lemma uncategorized_kept_by_run st c d :
  has_uncategorized d → has_uncategorized (run st c d).
Proof.
  intros (k & row & Hk & Hprot). destruct c; simpl.
  - destruct (add_account_effect st name initial_balance d)
      as [-> | [_ ->]]; exists k, row; split; assumption.
  - destruct (update_account_effect st account_id new_name
                new_initial_balance d) as [-> | (_ & _ & ->)];
      exists k, row; split; assumption.
  - destruct (delete_account_effect st account_id d) as [-> | ->];
      exists k, row; split; assumption.
  - destruct st; [| exists k, row; split; assumption].
    rewrite add_category_healthy.
    case_decide; exists k, row; (split; [| exact Hprot]); [| exact Hk].
    simpl. rewrite lookup_insert_ne; [exact Hk |].
    intros <-. rewrite next_rowid_fresh in Hk. discriminate.
  - destruct (update_category_effect st category_id new_name new_type d)
      as [-> | (old & Hold & Hnot & _ & _ & _ & ->)];
      exists k, row; (split; [| exact Hprot]); [exact Hk |].
    simpl. rewrite lookup_insert_ne; [exact Hk |].
    intros <-. rewrite Hk in Hold. injection Hold as <-. contradiction.
  - destruct (delete_category_effect st category_id d)
      as [-> | (old & Hold & Hnot & ->)];
      exists k, row; (split; [| exact Hprot]); [exact Hk |].
    simpl. rewrite lookup_delete_ne; [exact Hk |].
    intros <-. rewrite Hk in Hold. injection Hold as <-. contradiction.
  - destruct (set_budget_effect st category_id month_str amount d)
      as [-> | (_ & t' & s' & -> & _)]; exists k, row; split; assumption.
  - destruct (add_transaction_effect st account_id date_str description amount
                category_id d) as [-> | (cat' & _ & _ & ->)];
      exists k, row; split; assumption.
  - destruct (update_transaction_effect st transaction_id account_id date_str
                description amount category_id d)
      as [-> | (cat' & _ & _ & _ & ->)]; exists k, row; split; assumption.
  - destruct (delete_transaction_effect st transaction_id d) as [-> | ->];
      exists k, row; split; assumption.
Qed.

(** ** The schema's constraints are invariants of the repository *)

(** X1.  Whatever calls of the writing functions are made, with or without
    storage faults, the foreign keys keep holding: every transaction belongs
    to an account of the store, its category is NULL or a category of the
    store, and every budget belongs to a category of the store. *)
Theorem references_always_hold :
  ∀ (cs : list (storage * call)) (d : db),
    references_hold d → references_hold (run_all cs d).
Proof.
  intros cs. unfold run_all.
  induction cs as [| [st c] cs IH]; intros d Hd; [exact Hd |].
  simpl. apply IH. apply references_kept_by_run. exact Hd.
Qed.

(** The sample store and the sample calls. *)
Lemma references_always_hold_witness :
  references_hold sample_db ∧ references_hold (run_all sample_calls sample_db).
Proof.
  assert (H : references_hold sample_db)
    by (apply (bool_decide_unpack _); vm_compute; exact I).
  split; [exact H |]. exact (references_always_hold sample_calls sample_db H).
Defined.

(** X2.  Whatever calls are made, the uniqueness constraints keep holding:
    no two accounts and no two categories share a name up to letter case, no
    two budgets share (category_id, month), and every category type is
    'expense' or 'income'. *)
Theorem constraints_always_hold :
  ∀ (cs : list (storage * call)) (d : db),
    constraints_hold d → constraints_hold (run_all cs d).
Proof.
  intros cs. unfold run_all.
  induction cs as [| [st c] cs IH]; intros d Hd; [exact Hd |].
  simpl. apply IH. apply constraints_kept_by_run. exact Hd.
Qed.

(** The sample store and the sample calls. *)
Lemma constraints_always_hold_witness :
  constraints_hold sample_db ∧
  constraints_hold (run_all sample_calls sample_db).
Proof.
  assert (H : constraints_hold sample_db)
    by (apply (bool_decide_unpack _); vm_compute; exact I).
  split; [exact H |]. exact (constraints_always_hold sample_calls sample_db H).
Defined.

(** X3.  Whatever calls are made with finite amounts, every stored amount
    (initial balances, transaction amounts, budget amounts) keeps exactly two
    places: each writer quantizes what it stores, and a call that raises
    stores nothing. *)
Theorem amounts_always_in_cents :
  ∀ (cs : list (storage * call)) (d : db),
    amounts_in_cents d → amounts_in_cents (run_all cs d).
Proof.
  intros cs. unfold run_all.
  induction cs as [| [st c] cs IH]; intros d Hd; [exact Hd |].
  simpl. apply IH. apply amounts_kept_by_run. exact Hd.
Qed.

(** The sample store and the sample calls. *)
Lemma amounts_always_in_cents_witness :
  amounts_in_cents sample_db ∧
  amounts_in_cents (run_all sample_calls sample_db).
Proof.
  assert (H : amounts_in_cents sample_db)
    by (apply (bool_decide_unpack _); vm_compute; exact I).
  split; [exact H |]. exact (amounts_always_in_cents sample_calls sample_db H).
Defined.

(** X4.  Once the protected 'Uncategorized' category is in the store, no
    sequence of calls removes or renames it away: a category with that name
    is in the store after every call. *)
Theorem uncategorized_always_present :
  ∀ (cs : list (storage * call)) (d : db),
    has_uncategorized d → has_uncategorized (run_all cs d).
Proof.
  intros cs. unfold run_all.
  induction cs as [| [st c] cs IH]; intros d Hd; [exact Hd |].
  simpl. apply IH. apply uncategorized_kept_by_run. exact Hd.
Qed.

(** The sample store and the sample calls. *)
Lemma uncategorized_always_present_witness :
  has_uncategorized sample_db ∧
  has_uncategorized (run_all sample_calls sample_db).
Proof.
  assert (H : has_uncategorized sample_db)
    by (apply (bool_decide_unpack _); vm_compute; exact I).
  split; [exact H |].
  exact (uncategorized_always_present sample_calls sample_db H).
Defined.

(** ** Which rows an aggregate receives *)

Lemma selected_same (P : transaction_row → Prop) `{∀ t, Decision (P t)}
    (d d' : db) :
  (∀ k t, transactions d' !! k = Some t ∧ P t ↔
          transactions d !! k = Some t ∧ P t) →
  selected P d' = selected P d.
Proof.
  intros Hk. unfold selected. f_equal. apply map_eq. intros k.
  apply option_eq. intros t. rewrite !map_lookup_filter_Some. apply Hk.
Qed.

Lemma selected_fmap (P : transaction_row → Prop) `{∀ t, Decision (P t)}
    (f : transaction_row → transaction_row) (d d' : db) :
  transactions d' = f <$> transactions d →
  (∀ t, P (f t) ↔ P t) →
  (∀ t, tx_date (f t) = tx_date t ∧ tx_amount (f t) = tx_amount t) →
  selected P d' = selected P d.
Proof.
  intros Htx HP Hf. unfold selected. apply map_eq. intros k.
  rewrite !lookup_fmap, Htx, !map_lookup_filter, lookup_fmap.
  destruct (transactions d !! k) as [t |]; [| reflexivity]. simpl.
  destruct (Hf t) as [Hd Ha].
  pose proof (HP t) as HPt.
  repeat case_guard; simpl; [rewrite Hd, Ha; reflexivity | tauto ..].
Qed.

(** ** Deleting an account *)

(** X5.  [delete_account] on an id that is not in the table and that SQLite
    can bind (a 64-bit integer) returns False and changes nothing; an id
    beyond 64 bits raises OverflowError once the connection is open, the
    store unchanged.  On an account of the store it returns True, removes
    the account and every transaction of it and nothing else: the other
    accounts, their transactions and balances, the categories and the budgets
    are as before, and the balance read for the deleted id is 0.00. *)
Theorem delete_account_cascades :
  ∀ {engine : Engine} (d : db) (account_id : Z),
    (accounts d !! account_id = None →
     (int64 account_id →
      ∀ st, delete_account st account_id d = (Returned false, d)) ∧
     (¬ int64 account_id →
      delete_account Healthy account_id d = (Raised OverflowError, d) ∧
      delete_account Faulty account_id d = (Returned false, d))) ∧
    (is_Some (accounts d !! account_id) → int64 account_id →
     let r := delete_account Healthy account_id d in
     r.1 = Returned true ∧
     accounts r.2 = delete account_id (accounts d) ∧
     (∀ k t, transactions r.2 !! k = Some t ↔
             transactions d !! k = Some t ∧ tx_account_id t ≠ account_id) ∧
     categories r.2 = categories d ∧ budgets r.2 = budgets d ∧
     get_account_current_balance Healthy account_id r.2
     = Returned Decimal_0_00 ∧
     ∀ a, a ≠ account_id →
          get_account_current_balance Healthy a r.2 =
          get_account_current_balance Healthy a d).
Proof.
  intros engine d id. split.
  - intros Hnone. split.
    + intros Hid st. destruct st; [| reflexivity].
      rewrite delete_account_healthy, decide_True by exact Hid.
      rewrite Hnone. reflexivity.
    + intros Hid. split; [| reflexivity].
      rewrite delete_account_healthy, decide_False by exact Hid. reflexivity.
  - intros [row Hrow] Hid r. subst r.
    rewrite delete_account_healthy, decide_True by exact Hid. rewrite Hrow.
    cbn [fst snd accounts transactions categories budgets].
    split; [reflexivity |]. split; [reflexivity |].
    split; [intros k t; rewrite map_lookup_filter_Some; reflexivity |].
    split; [reflexivity |]. split; [reflexivity |].
    split.
    + apply get_account_current_balance_missing; [exact Hid |].
      apply lookup_delete_eq.
    + intros a Hne. apply balance_same_rows.
      * cbn [accounts]. apply lookup_delete_ne. congruence.
      * apply selected_same. intros k t. cbn [transactions].
        rewrite map_lookup_filter_Some. simpl. split; [tauto |].
        intros [Hk Ha]. split; [| exact Ha]. split; [exact Hk |].
        rewrite Ha. exact Hne.
Qed.

(** Account 1 of the sample store and its two transactions. *)
Lemma delete_account_cascades_witness :
  is_Some (accounts sample_db !! 1) ∧ int64 1 ∧
  (delete_account Healthy 1 sample_db).1 = Returned true ∧
  transactions (delete_account Healthy 1 sample_db).2 !! 2 = None.
Proof.
  assert (H : is_Some (accounts sample_db !! 1))
    by (eexists; vm_compute; reflexivity).
  assert (Hid : int64 1) by (unfold int64; lia).
  split; [exact H |]. split; [exact Hid |].
  destruct (proj2 (delete_account_cascades (engine := decimal_engine)
                     sample_db 1) H Hid)
    as (Htrue & _ & Htx & _).
  split; [exact Htrue |].
  destruct (transactions (delete_account Healthy 1 sample_db).2 !! 2)
    as [t |] eqn:E; [| reflexivity].
  apply Htx in E as [E Hne]. exfalso. apply Hne.
  vm_compute in E. injection E as <-. reflexivity.
Defined.

(** ** Deleting a category *)

Lemma delete_category_runs (d : db) (id : Z) (old : category_row) :
  categories d !! id = Some old → ¬ is_uncategorized old →
  delete_category Healthy id d =
  (true,
   mkDb (accounts d) (accounts_seq d)
        (delete id (categories d)) (categories_seq d)
        (clear_category id <$> transactions d) (transactions_seq d)
        (filter (λ kv, bud_category_id kv.2 ≠ id) (budgets d))
        (budgets_seq d)).
Proof.
  intros Hold Hnot. unfold delete_category. rewrite try_except_healthy.
  unfold mbind, cursor_bind, query. rewrite Hold.
  rewrite decide_False by exact Hnot.
  unfold sql_delete_category. rewrite Hold. reflexivity.
Qed.

Lemma clear_category_keeps (id : Z) (t : transaction_row) :
  tx_account_id (clear_category id t) = tx_account_id t ∧
  tx_date (clear_category id t) = tx_date t ∧
  tx_amount (clear_category id t) = tx_amount t.
Proof. unfold clear_category. case_decide; repeat split. Qed.

(** X6.  [delete_category] on a category of the store other than the
    protected one returns True and removes that category; it deletes none of
    its transactions: each keeps its id, account, date, description and
    amount and only loses the category reference, so it is displayed as
    'Uncategorized'; the budgets of the category are removed and the other
    budgets kept; no account and no balance changes. *)
Theorem delete_category_keeps_transactions :
  ∀ {engine : Engine} (d : db) (category_id : Z) (old : category_row),
    categories d !! category_id = Some old →
    ¬ is_uncategorized old →
    let r := delete_category Healthy category_id d in
    r.1 = true ∧
    categories r.2 = delete category_id (categories d) ∧
    (∀ k, transactions r.2 !! k =
          clear_category category_id <$> transactions d !! k) ∧
    (∀ k t, transactions d !! k = Some t →
            tx_category_id t = Some category_id →
            category_name r.2 (clear_category category_id t)
            = "Uncategorized") ∧
    (∀ k b, budgets r.2 !! k = Some b ↔
            budgets d !! k = Some b ∧ bud_category_id b ≠ category_id) ∧
    accounts r.2 = accounts d ∧
    ∀ a, get_account_current_balance Healthy a r.2 =
         get_account_current_balance Healthy a d.
Proof.
  intros engine d id old Hold Hnot r. subst r.
  rewrite (delete_category_runs d id old Hold Hnot).
  cbn [fst snd accounts transactions categories budgets].
  split; [reflexivity |]. split; [reflexivity |].
  split; [intros k; apply lookup_fmap |].
  split.
  { intros k t _ Hcat. unfold category_name, clear_category.
    rewrite decide_True by exact Hcat. reflexivity. }
  split; [intros k b; rewrite map_lookup_filter_Some; reflexivity |].
  split; [reflexivity |].
  intros a. apply balance_same_rows; [reflexivity |].
  apply (selected_fmap _ (clear_category id)); [reflexivity | |].
  - intros t. destruct (clear_category_keeps id t) as (-> & _). reflexivity.
  - intros t. destruct (clear_category_keeps id t) as (_ & -> & ->).
    split; reflexivity.
Qed.

(** Groceries in the sample store: one transaction and one budget. *)
Lemma delete_category_keeps_transactions_witness :
  categories sample_db !! 2 = Some (mkCategory "Groceries" "expense") ∧
  ¬ is_uncategorized (mkCategory "Groceries" "expense") ∧
  (delete_category Healthy 2 sample_db).1 = true ∧
  get_account_current_balance (engine := decimal_engine) Healthy 1
    (delete_category Healthy 2 sample_db).2
  = get_account_current_balance (engine := decimal_engine) Healthy 1 sample_db.
Proof.
  assert (H1 : categories sample_db !! 2
               = Some (mkCategory "Groceries" "expense"))
    by (vm_compute; reflexivity).
  assert (H2 : ¬ is_uncategorized (mkCategory "Groceries" "expense"))
    by (vm_compute; discriminate).
  split; [exact H1 |]. split; [exact H2 |].
  destruct (delete_category_keeps_transactions (engine := decimal_engine)
              sample_db 2 _ H1 H2)
    as (Htrue & _ & _ & _ & _ & _ & Hbal).
  split; [exact Htrue | apply Hbal].
Defined.
(** ** Adding a transaction *)




(** ** A new account *)




(** ** Reading a transaction back *)



(** ** The budgets of a month *)

Lemma NoDup_omap_inj {A B} (f : A → option B) (l : list A) :
  (∀ x y z, f x = Some z → f y = Some z → x = y) →
  NoDup l → NoDup (omap f l).
Proof.
  intros Hinj. induction 1 as [| x l Hx _ IH]; [constructor |].
  cbn [omap list_omap]. destruct (f x) as [z |] eqn:E; [| exact IH].
  constructor; [| exact IH].
  intros Hin. apply list_elem_of_omap in Hin as (y & Hy & Hfy).
  rewrite (Hinj x y z E Hfy) in Hx. contradiction.
Qed.

Lemma budget_line_of_Some (m : string) (d : db) (kv : Z * budget_row)
    (line : budget_line) :
  budget_line_of m d kv = Some line ↔
  ∃ c, categories d !! bud_category_id kv.2 = Some c ∧
       bud_month kv.2 = m ∧ cat_type c = "expense" ∧
       line = mkBudgetLine kv.1 (bud_category_id kv.2) (cat_name c)
                           (cat_type c) (bud_month kv.2) (bud_amount kv.2).
Proof.
  unfold budget_line_of.
  destruct (categories d !! bud_category_id kv.2) as [c |]; cbn [mbind option_bind].
  - case_decide as Hd.
    + split.
      * intros [= <-]. exists c. tauto.
      * intros (c' & [= <-] & _ & _ & ->). reflexivity.
    + split; [discriminate |].
      intros (c' & [= <-] & Hm & Ht & _). exfalso. apply Hd. tauto.
  - split; [discriminate |]. intros (c' & Hc & _). discriminate.
Qed.

Lemma budget_line_of_inj (m : string) (d : db) (x y : Z * budget_row)
    (line : budget_line) :
  budget_line_of m d x = Some line → budget_line_of m d y = Some line → x = y.
Proof.
  intros Hx Hy.
  apply budget_line_of_Some in Hx as (c & _ & _ & _ & ->).
  apply budget_line_of_Some in Hy as (c' & _ & _ & _ & [= E1 E2 _ _ E3 E4]).
  destruct x as [k [xc xm xa]], y as [k' [yc ym ya]]. simpl in *.
  congruence.
Qed.

Lemma get_budgets_for_month_healthy (m : string) (d : db) :
  get_budgets_for_month Healthy m d ≡ₚ
  omap (budget_line_of m d) (map_to_list (budgets d)).
Proof.
  unfold get_budgets_for_month. rewrite try_except_healthy.
  apply merge_sort_Permutation.
Qed.

Lemma budget_listed (m : string) (d : db) (line : budget_line) :
  line ∈ get_budgets_for_month Healthy m d ↔
  ∃ k b c, budgets d !! k = Some b ∧
           categories d !! bud_category_id b = Some c ∧
           bud_month b = m ∧ cat_type c = "expense" ∧
           line = mkBudgetLine k (bud_category_id b) (cat_name c) (cat_type c)
                               (bud_month b) (bud_amount b).
Proof.
  rewrite get_budgets_for_month_healthy, list_elem_of_omap. split.
  - intros ([k b] & Hkb & Hline). apply elem_of_map_to_list in Hkb.
    apply budget_line_of_Some in Hline as (c & Hc). exists k, b, c. tauto.
  - intros (k & b & c & Hkb & Hc). exists (k, b).
    split; [apply elem_of_map_to_list, Hkb |].
    apply budget_line_of_Some. exists c. exact Hc.
Qed.

(** X12.  The budget [set_budget] accepts is the budget
    [get_budgets_for_month] lists.  In a store that keeps the uniqueness of
    (category, month), after [set_budget] returned True the listing of the
    month has no line twice and holds a line for the category, with the name
    and type of the category, the month, and the amount given raised to zero
    when negative and rounded to cents; it is the only line of the
    category. *)
Theorem budget_round_trip :
  ∀ (d d' : db) (category_id : Z) (month_str : string) (amount : Decimal),
    budgets_unique (budgets d) →
    set_budget Healthy category_id month_str amount d = (Returned true, d') →
    NoDup (get_budgets_for_month Healthy month_str d') ∧
    ∃ line c,
      categories d !! category_id = Some c ∧
      line ∈ get_budgets_for_month Healthy month_str d' ∧
      bl_category_id line = category_id ∧
      bl_category_name line = cat_name c ∧
      bl_category_type line = "expense" ∧
      bl_month line = month_str ∧
      bl_amount line = to_cents (py_max Decimal_0_00 amount) ∧
      ∀ line', line' ∈ get_budgets_for_month Healthy month_str d' →
               bl_category_id line' = category_id → line' = line.
Proof.
  intros d d' c m a Huniq Hset.
  split.
  { rewrite get_budgets_for_month_healthy.
    apply NoDup_omap_inj; [apply budget_line_of_inj | apply NoDup_map_to_list]. }
  destruct (set_budget_returned_true d d' c m a Hset) as (Hq & Hc64 & Hok).
  destruct (set_budget_accepts d c m a Hq Hc64 Hok)
    as (t' & s' & Hrun & [k Hk] & Hkey & Hu & _).
  rewrite Hrun in Hset. injection Hset as <-.
  specialize (Hu Huniq).
  unfold budget_rejected in Hok.
  destruct (categories d !! c) as [cat |] eqn:Hcat; [| exfalso; apply Hok; exact I].
  assert (Hty : cat_type cat = "expense").
  { destruct (decide (cat_type cat = "expense")) as [E | E]; [exact E |].
    exfalso. apply Hok. left. exact E. }
  exists (mkBudgetLine k c (cat_name cat) (cat_type cat) m
                       (to_cents (py_max Decimal_0_00 a))), cat.
  split; [reflexivity |].
  split.
  { apply budget_listed. eexists k, _, cat.
    split; [exact Hk |]. cbn [bud_category_id bud_month bud_amount].
    split; [exact Hcat |]. split; [reflexivity |]. split; [exact Hty |].
    reflexivity. }
  cbn [bl_category_id bl_category_name bl_category_type bl_month bl_amount].
  split; [reflexivity |]. split; [reflexivity |]. split; [exact Hty |].
  split; [reflexivity |]. split; [reflexivity |].
  intros line' Hin Hc.
  apply budget_listed in Hin as (k' & b' & c' & Hk' & Hc' & Hm' & Hty' & ->).
  cbn [bl_category_id] in Hc.
  unfold with_budgets in Hk', Hc'. cbn [budgets categories] in Hk', Hc'.
  assert (Eb : b' = mkBudget c m (to_cents (py_max Decimal_0_00 a))).
  { apply (Hkey k' b' Hk'). split; assumption. }
  assert (Ek : k' = k).
  { apply (Hu k' k b' _ Hk' Hk); rewrite Eb; reflexivity. }
  subst b' k'. cbn [bud_category_id bud_month bud_amount] in *.
  rewrite Hcat in Hc'. injection Hc' as <-. reflexivity.
Qed.

(** A negative amount for Groceries in February 2024 is stored as 0.00. *)
Lemma budget_round_trip_witness :
  budgets_unique (budgets sample_db) ∧
  set_budget Healthy 2 "2024-02" (mkDecimal (-5) 0) sample_db
  = (Returned true,
     (set_budget Healthy 2 "2024-02" (mkDecimal (-5) 0) sample_db).2) ∧
  NoDup (get_budgets_for_month Healthy "2024-02"
           (set_budget Healthy 2 "2024-02" (mkDecimal (-5) 0) sample_db).2).
Proof.
  assert (H : set_budget Healthy 2 "2024-02" (mkDecimal (-5) 0) sample_db
              = (Returned true,
                 (set_budget Healthy 2 "2024-02" (mkDecimal (-5) 0)
                    sample_db).2))
    by (vm_compute; reflexivity).
  split; [exact sample_budgets_unique |]. split; [exact H |].
  exact (proj1 (budget_round_trip _ _ _ _ _ sample_budgets_unique H)).
Defined.

(** ** New categories *)




(** ** The listing of categories *)

Global Instance nocase_le_total {A} (name_of : A → string) :
  Total (λ x y : A, nocase_le (name_of x) (name_of y)).
Proof. intros x y. unfold nocase_le. apply String.leb_total. Qed.


(** ** The total over all accounts *)





Section total.

Context {engine : Engine}.





End total.






(** ** The flow of a month *)

Lemma value_zero : (value (mkDecimal 0 0) == 0)%Q.
Proof. reflexivity. Qed.


Lemma append_cons (x : ascii) (a b : string) :
  String x a +:+ b = String x (a +:+ b).
Proof. reflexivity. Qed.

Lemma sql_like_percent (s : string) : sql_like "%" s = true.
Proof.
  induction s as [| a s IH]; [reflexivity |].
  simpl in *. exact IH.
Qed.

Lemma sql_like_prefix (p : string) :
  wildcard_free p = true →
  ∀ s, sql_like (p +:+ "%") s = String.prefix (PyStr.lower p) (PyStr.lower s).
Proof.
  induction p as [| a p IH]; intros Hfree s.
  - change ("" +:+ "%") with "%". rewrite (sql_like_percent s).
    destruct s; reflexivity.
  - cbn [wildcard_free] in Hfree.
    apply andb_prop in Hfree as [Hfree Hp].
    apply andb_prop in Hfree as [H1 H2].
    apply negb_true_iff, Ascii.eqb_neq in H1, H2.
    rewrite append_cons.
    cbn [sql_like]. rewrite !decide_False by assumption.
    destruct s as [| b s]; [reflexivity |].
    rewrite (IH Hp s). cbn [PyStr.lower String.prefix].
    destruct (ascii_dec (PyStr.lower_ascii a) (PyStr.lower_ascii b)) as [E | E].
    + rewrite bool_decide_eq_true_2 by (symmetry; exact E). reflexivity.
    + rewrite bool_decide_eq_false_2 by (intros E'; apply E; symmetry; exact E').
      reflexivity.
Qed.

Lemma wildcard_free_app (a b : string) :
  wildcard_free a = true → wildcard_free b = true →
  wildcard_free (a +:+ b) = true.
Proof.
  induction a as [| x a IH]; intros Ha Hb; [exact Hb |].
  rewrite append_cons. cbn [wildcard_free] in *.
  apply andb_prop in Ha as [Hx Ha].
  rewrite Hx, (IH Ha Hb). reflexivity.
Qed.

Lemma append_assoc (a b c : string) : a +:+ (b +:+ c) = (a +:+ b) +:+ c.
Proof.
  induction a as [| x a IH]; [reflexivity |].
  rewrite !append_cons, IH. reflexivity.
Qed.

Lemma date_pattern_in_month (m : string) (t : transaction_row) :
  wildcard_free m = true →
  sql_like (date_pattern m) (tx_date t) = true ↔ in_month m t.
Proof.
  intros Hm. unfold date_pattern, in_month.
  change (m +:+ "-%") with (m +:+ ("-" +:+ "%")).
  rewrite append_assoc.
  rewrite sql_like_prefix by (apply wildcard_free_app; [exact Hm | reflexivity]).
  reflexivity.
Qed.

Lemma selected_iff (P Q : transaction_row → Prop) `{∀ t, Decision (P t)}
    `{∀ t, Decision (Q t)} (d : db) :
  (∀ t, P t ↔ Q t) → selected P d = selected Q d.
Proof.
  intros HPQ. unfold selected. f_equal. apply map_eq. intros k.
  apply option_eq. intros t. rewrite !map_lookup_filter_Some. simpl.
  rewrite (HPQ t). reflexivity.
Qed.

(** What the roundings leave of a sign. *)
Lemma round_half_even_nonneg (c m : Z) :
  0 <= c → 0 <= m → 0 <= round_half_even c m.
Proof.
  intros Hc Hm. unfold round_half_even.
  assert (Hq : 0 <= Z.abs c / m) by (apply Z_div_nonneg_nonneg; lia).
  assert (Hs : 0 <= Z.sgn c) by (apply Z.sgn_nonneg, Hc).
  destruct (Z.ltb _ _); [nia |].
  destruct (Z.eqb _ _); [destruct (Z.even _) |]; nia.
Qed.

Lemma context_round_nonneg (d : Decimal) :
  0 <= coeff d → 0 <= coeff (context_round d).
Proof.
  intros Hd. unfold context_round.
  destruct (Z.ltb _ _); [exact Hd |].
  assert (Hr : 0 <= round_half_even (coeff d) (10 ^ (digits (coeff d) - prec)))
    by (apply round_half_even_nonneg; [exact Hd | apply Z.pow_nonneg; lia]).
  destruct (Z.eqb _ _); cbn [coeff]; [| exact Hr].
  apply Z_div_nonneg_nonneg; lia.
Qed.

Lemma to_cents_nonneg (d : Decimal) : 0 <= coeff d → 0 <= coeff (to_cents d).
Proof.
  intros Hd. unfold to_cents, quantize_exp.
  destruct (Z.leb _ _); cbn [coeff].
  - apply Z.mul_nonneg_nonneg; [exact Hd | apply Z.pow_nonneg; lia].
  - unfold round_half_up.
    assert (Hm : 0 <= 10 ^ (exp Decimal_0_01 - exp d))
      by (apply Z.pow_nonneg; lia).
    apply Z.mul_nonneg_nonneg; [apply Z.sgn_nonneg, Hd |].
    apply Z_div_nonneg_nonneg; lia.
Qed.

Lemma Decimal_abs_nonneg (d : Decimal) : 0 <= coeff (Decimal_abs d).
Proof. apply context_round_nonneg. cbn [coeff]. lia. Qed.

Section month.

Context {engine : Engine}.

Lemma summary_faulty (m : string) (d : db) :
  get_income_expense_summary_for_month Faulty m d
  = Returned (mkSummary Decimal_0_00 Decimal_0_00).
Proof. reflexivity. Qed.

Lemma summary_healthy (m : string) (d : db) :
  get_income_expense_summary_for_month Healthy m d =
  match quantize (default Decimal_0_00 (income_of_month m d)) with
  | inl e => Raised e
  | inr i =>
      match quantize match expense_of_month m d with
                     | Some total => Decimal_abs total
                     | None => Decimal_0_00
                     end with
      | inl e => Raised e
      | inr x => Returned (mkSummary i x)
      end
  end.
Proof.
  unfold get_income_expense_summary_for_month. rewrite try_except_healthy.
  reflexivity.
Qed.

Lemma income_rows (m : string) (d : db) :
  wildcard_free m = true →
  income_of_month m d =
  SUM month_income
      (selected (λ t, in_month m t ∧ (0 < amount_of t)%Q) d).
Proof.
  intros Hm. unfold income_of_month. f_equal. apply selected_iff. intros t.
  rewrite !Is_true_true, (date_pattern_in_month m t Hm).
  unfold Decimal_gt. rewrite Decimal_lt_value, value_zero.
  unfold amount_of. tauto.
Qed.

Lemma expense_rows (m : string) (d : db) :
  wildcard_free m = true →
  expense_of_month m d =
  SUM month_expense
      (selected (λ t, in_month m t ∧ (amount_of t < 0)%Q) d).
Proof.
  intros Hm. unfold expense_of_month. f_equal. apply selected_iff. intros t.
  rewrite !Is_true_true, (date_pattern_in_month m t Hm).
  rewrite Decimal_lt_value, value_zero.
  unfold amount_of. tauto.
Qed.

End month.

(** X11.  For a month string without the wildcards of LIKE, the two sums of
    [get_income_expense_summary_for_month] are taken over the transactions
    whose date starts with the month and a hyphen (letters compared without
    case): the income over those of positive amount, the expense over those
    of negative amount.  When the connection cannot be opened, or when the
    month has no transaction, both totals are 0.00.  A summary that is
    returned holds the income the engine summed, rounded to cents, and the
    magnitude of the expense the engine summed, rounded to cents; both have
    two places and the expense is not negative. *)
Theorem month_flow :
  ∀ {engine : Engine} (d : db) (month_str : string),
    wildcard_free month_str = true →
    let income :=
      SUM month_income
          (selected (λ t, in_month month_str t ∧ (0 < amount_of t)%Q) d) in
    let expense :=
      SUM month_expense
          (selected (λ t, in_month month_str t ∧ (amount_of t < 0)%Q) d) in
    income_of_month month_str d = income ∧
    expense_of_month month_str d = expense ∧
    get_income_expense_summary_for_month Faulty month_str d
    = Returned (mkSummary Decimal_0_00 Decimal_0_00) ∧
    ((∀ k t, transactions d !! k = Some t → ¬ in_month month_str t) →
     get_income_expense_summary_for_month Healthy month_str d
     = Returned (mkSummary Decimal_0_00 Decimal_0_00)) ∧
    ∀ s, get_income_expense_summary_for_month Healthy month_str d
         = Returned s →
         total_income s = to_cents (default Decimal_0_00 income) ∧
         total_expense s = to_cents match expense with
                                    | Some total => Decimal_abs total
                                    | None => Decimal_0_00
                                    end ∧
         exp (total_income s) = -2 ∧ exp (total_expense s) = -2 ∧
         0 <= coeff (total_expense s).
Proof.
  intros engine d m Hm income expense.
  pose proof (income_rows m d Hm) as Hin. fold income in Hin.
  pose proof (expense_rows m d Hm) as Hout. fold expense in Hout.
  split; [exact Hin |]. split; [exact Hout |].
  split; [reflexivity |]. split.
  - intros Hnone. rewrite summary_healthy, Hin, Hout.
    subst income expense.
    rewrite !selected_empty by (intros k t Hk [Ht _]; apply (Hnone k t Hk Ht)).
    rewrite !SUM_no_row. reflexivity.
  - intros s. rewrite summary_healthy, Hin, Hout.
    destruct (quantize (default _ _)) as [e | i] eqn:Ei; [discriminate |].
    destruct (quantize match expense with
                       | Some total => Decimal_abs total
                       | None => Decimal_0_00
                       end) as [e | x] eqn:Ex; [discriminate |].
    intros [= <-]. cbn [total_income total_expense].
    apply quantize_returns in Ei as [-> _].
    apply quantize_returns in Ex as [-> _].
    split; [reflexivity |]. split; [reflexivity |].
    split; [apply exp_quantize |]. split; [apply exp_quantize |].
    apply to_cents_nonneg. destruct expense; [apply Decimal_abs_nonneg |].
    reflexivity.
Qed.

(** January 2024 on the sample store: 1000.00 in, 25.50 out. *)
Lemma month_flow_witness :
  wildcard_free "2024-01" = true ∧
  get_income_expense_summary_for_month (engine := decimal_engine)
    Healthy "2024-01" sample_db
  = Returned (mkSummary (mkDecimal 100000 (-2)) (mkDecimal 2550 (-2))) ∧
  total_expense (mkSummary (mkDecimal 100000 (-2)) (mkDecimal 2550 (-2))) =
  to_cents
    match SUM (Engine := decimal_engine) month_expense
              (selected (λ t, in_month "2024-01" t ∧ (amount_of t < 0)%Q)
                        sample_db) with
    | Some total => Decimal_abs total
    | None => Decimal_0_00
    end.
Proof.
  assert (H : get_income_expense_summary_for_month (engine := decimal_engine)
                Healthy "2024-01" sample_db
              = Returned (mkSummary (mkDecimal 100000 (-2))
                                    (mkDecimal 2550 (-2))))
    by (vm_compute; reflexivity).
  split; [reflexivity |]. split; [exact H |].
  destruct (month_flow (engine := decimal_engine) sample_db "2024-01" eq_refl)
    as (_ & _ & _ & _ & Hs).
  exact (proj1 (proj2 (Hs _ H))).
Defined.
(** ** Editing an account *)


